(** * fqdns: the response collector, the forged-response classifier and
      wrong-answer discovery of [fqdns.py], embedded and verified.

    The program is Python 2.  Its pure functions ([parse_at],
    [list_ipv4_addresses], [is_right_response]) are Rocq functions into a
    result type that carries the Python exception.  The code that reads the
    clock and uses the socket ([pick_responses], [resolve_over_udp],
    [discover_once], [discover]) runs in a state-and-exception monad over a
    simulated world: a clock, a log of the datagrams sent, and, for every
    socket, the events the network will deliver to it.  Time is counted in
    ticks of the clock, as integers.  Sets of addresses are [gset string].

    Python values whose shape the program leaves open are inductive types:
    what [pick_responses] returns is a list of messages or one message
    outside a list ([Picked]); what [resolve_over_udp] returns is a list of
    addresses or a list of address lists ([Answers]). *)

From Stdlib Require Import ZArith Ascii String DecimalString DecimalZ List Lia.
From Stdlib.Strings Require Import Byte.
From stdpp Require Import base option list strings gmap sets.

#[local] Set Warnings "-clear-no-such-hyp".

Local Open Scope string_scope.
Local Open Scope list_scope.
Local Open Scope Z_scope.

(** ** Exceptions and results *)

(** The exceptions the embedded code can raise. *)
Inductive exn : Type :=
  | Exception (msg : string)      (* raise Exception('...') in fqdns.py *)
  | ValueError (msg : string)     (* int() of a non-integer, tuple unpacking *)
  | IndexError                    (* [][0] *)
  | TypeError                     (* a dpkt DNS object indexed by 0 or iterated *)
  | SocketError                   (* socket.inet_ntoa on rdata that is not 4 bytes *)
  | SocketTimeout                 (* sock.recv with nothing to read *)
  | UnpackError.                  (* dpkt.dns.DNS(data) on undecodable data *)

Inductive result (A : Type) : Type :=
  | Ok (a : A)
  | Raise (e : exn).
Arguments Ok {A} a.
Arguments Raise {A} e.

#[export] Instance result_ret : MRet result := fun A a => Ok a.
#[export] Instance result_bind : MBind result := fun A B f m =>
  match m with
  | Ok a => f a
  | Raise e => Raise e
  end.
#[export] Instance result_fmap : FMap result := fun A B f m =>
  match m with
  | Ok a => Ok (f a)
  | Raise e => Raise e
  end.

(** ** Python strings *)

Module PyStr.

(** [c in s] for a one-character [c]. *)
Fixpoint contains (c : ascii) (s : string) : bool :=
  match s with
  | EmptyString => false
  | String d s' => if Ascii.eqb d c then true else contains c s'
  end.

(** [s.count(c)] for a one-character [c]. *)
Fixpoint count (c : ascii) (s : string) : nat :=
  match s with
  | EmptyString => O
  | String d s' => if Ascii.eqb d c then S (count c s') else count c s'
  end.

(** [s.split(c)]: the pieces between the occurrences of [c], empty pieces
    kept; always at least one piece. *)
Fixpoint split (c : ascii) (s : string) : list string :=
  match s with
  | EmptyString => [EmptyString]
  | String d s' =>
      if Ascii.eqb d c then EmptyString :: split c s'
      else match split c s' with
           | piece :: pieces => String d piece :: pieces
           | [] => [String d EmptyString]
           end
  end.

(** The characters [str.isspace] accepts in a byte string:
    tab, line feed, vertical tab, form feed, carriage return, space. *)
Definition isspace (c : ascii) : bool :=
  let n := N_of_ascii c in
  ((9 <=? n) && (n <=? 13) || (n =? 32))%N.

Definition isdigit (c : ascii) : bool :=
  let n := N_of_ascii c in
  ((48 <=? n) && (n <=? 57))%N.

Fixpoint lstrip (s : string) : string :=
  match s with
  | String c s' => if isspace c then lstrip s' else s
  | EmptyString => EmptyString
  end.

(** Reads a run of decimal digits followed only by white space; [acc] is
    the value of the digits read so far. *)
Fixpoint digits (acc : Z) (s : string) : option Z :=
  match s with
  | EmptyString => Some acc
  | String c s' =>
      if isdigit c then digits (10 * acc + (Z.of_N (N_of_ascii c) - 48)) s'
      else if isspace c then
        match lstrip s' with EmptyString => Some acc | _ => None end
      else None
  end.

(** At least one digit, then [digits]. *)
Definition number (s : string) : option Z :=
  match s with
  | String c _ => if isdigit c then digits 0 s else None
  | EmptyString => None
  end.

(** [int(s)] in base 10, as Python 2 reads a byte string: optional white
    space, an optional sign, optional white space again, at least one
    decimal digit, optional white space.  (Python's message goes on to
    quote the literal.) *)
Definition int (s : string) : result Z :=
  let body := lstrip s in
  let parsed :=
    match body with
    | String "-" rest => Z.opp <$> number (lstrip rest)
    | String "+" rest => number (lstrip rest)
    | _ => number body
    end in
  match parsed with
  | Some n => Ok n
  | None => Raise (ValueError "invalid literal for int() with base 10")
  end.

End PyStr.

(** ** Endpoint parsing *)

(** [parse_at]: "host" or "host:port". *)
Definition parse_at (at_ : string) : result (string * Z) :=
  if PyStr.contains ":" at_ then
    match PyStr.split ":" at_ with
    | [server_ip; server_port] =>
        server_port ← PyStr.int server_port;
        mret (server_ip, server_port)
    | [] | [_] => Raise (ValueError "need more than 1 value to unpack")
    | _ => Raise (ValueError "too many values to unpack")
    end
  else
    mret (at_, 53).

(** ** DNS messages, as the program reads them from dpkt *)

Class PyLen (A : Type) := len : A -> Z.

#[export] Instance list_len {A} : PyLen (list A) := fun l => Z.of_nat (length l).
#[export] Instance str_len : PyLen string := fun s => Z.of_nat (String.length s).

Definition DNS_A : Z := 1.

(** A resource record: the two attributes the program reads. *)
Record RR : Type := { rr_type : Z; rdata : list byte }.

(** A decoded message ([dpkt.dns.DNS]): its identifier, its answer section,
    and the number of bytes its question and record sections pack to. *)
Record DNS : Type := { dns_id : Z; an : list RR; sections_size : nat }.

(** [len(message)]: dpkt answers with the length of the packed message,
    the 12-byte header followed by the sections. *)
#[export] Instance dns_len : PyLen DNS := fun m => 12 + Z.of_nat (sections_size m).

(** One octet in decimal. *)
Definition octet (b : byte) : string :=
  DecimalString.NilZero.string_of_uint (N.to_uint (Byte.to_N b)).

(** [socket.inet_ntoa]: exactly four bytes, rendered as a dotted quad. *)
Definition inet_ntoa (packed : list byte) : result string :=
  match packed with
  | [a; b; c; d] => Ok (octet a +:+ "." +:+ octet b +:+ "." +:+ octet c +:+ "." +:+ octet d)
  | _ => Raise SocketError
  end.

Definition list_ipv4_addresses (response : DNS) : result (list string) :=
  mapM (fun answer => inet_ntoa (rdata answer))
       (filter (fun answer => DNS_A = rr_type answer) (an response)).

(** ** The forged-response classifier *)

Definition is_right_response (response : DNS) (wrong_answers : gset string) : result bool :=
  answers ← list_ipv4_addresses response;
  if bool_decide (answers = []) then mret false
  else if 1 <? len answers then mret true
  else mret (negb (existsb (fun answer => bool_decide (answer ∈ wrong_answers)) answers)).

(** ** The simulated world: clock, process, network *)

(** What the socket can report: a datagram that decodes to a message, a
    datagram that does not decode, or an exceptional condition. *)
Inductive Event : Type :=
  | Datagram (response : DNS)
  | Undecodable
  | Exceptional.

(** A socket is what it has yet to deliver, in arrival order, each event
    with the time at which it becomes visible to [select]. *)
Definition Socket : Type := list (Z * Event).

Record Request : Type := { req_id : Z; req_name : string; req_type : Z }.

(** [network] holds, for each socket yet to be used, what the network will
    answer, each event with its delay after the query is sent.  [sent] logs
    every datagram sent with its destination. *)
Record World : Type := {
  clock : Z;
  pid : Z;
  network : list (list (Z * Event));
  sent : list (Request * (string * Z))
}.

(** State and exceptions: an exception keeps the changes made so far. *)
Definition M (A : Type) : Type := World -> result A * World.

#[export] Instance M_ret : MRet M := fun A a w => (Ok a, w).
#[export] Instance M_bind : MBind M := fun A B f m w =>
  match m w with
  | (Ok a, w') => f a w'
  | (Raise e, w') => (Raise e, w')
  end.

Definition throw {A} (e : exn) : M A := fun w => (Raise e, w).
Definition lift {A} (r : result A) : M A := fun w => (r, w).

Definition time_time : M Z := fun w => (Ok (clock w), w).
Definition os_getpid : M Z := fun w => (Ok (pid w), w).
Definition socket_socket : M Socket := mret [].

(** Events that come [delay] after [now]. *)
Definition delayed {E} (now : Z) (events : list (Z * E)) : list (Z * E) :=
  map (fun '(delay, e) => (now + delay, e)) events.

(** [sock.sendto(str(request), address)]: the datagram leaves, and the
    socket will see the answers the network has for it, each after its
    delay.  The packing of the request by dpkt is not part of the model: a
    run of the model is a run in which [str(request)] returns, which it
    does when the process id fits the 16 bits of the message id. *)
Definition sendto (sock : Socket) (request : Request) (address : string * Z) : M Socket :=
  fun w =>
    (Ok (sock ++ delayed (clock w) (hd [] (network w))),
     {| clock := clock w; pid := pid w; network := tail (network w);
        sent := (sent w ++ [(request, address)]) |}).

Inductive Ready : Type := Ins | Errors | Nothing.

Definition set_clock (t : Z) (w : World) : World :=
  {| clock := t; pid := pid w; network := network w; sent := sent w |}.

(** [select.select([sock], [], [sock], timeout)]: blocks until the next event
    is there or the time-out has passed; the clock moves accordingly. *)
Definition select (sock : Socket) (timeout : Z) : M Ready := fun w =>
  match sock with
  | (arrival, event) :: _ =>
      if arrival <? clock w + timeout then
        (Ok (match event with Exceptional => Errors | _ => Ins end),
         set_clock (Z.max (clock w) arrival) w)
      else (Ok Nothing, set_clock (clock w + timeout) w)
  | [] => (Ok Nothing, set_clock (clock w + timeout) w)
  end.

(** [dpkt.dns.DNS(sock.recv(512))] on the event at the head of the socket
    ([select] never announces an exceptional condition as readable). *)
Definition decode (event : Event) : result DNS :=
  match event with
  | Datagram response => Ok response
  | Undecodable => Raise UnpackError
  | Exceptional => Raise SocketError
  end.

(** ** The response collector *)

(** What [pick_responses] returns: a list of messages, or, on two of its
    paths, a message that is not in a list. *)
Inductive Picked : Type :=
  | Bare (response : DNS)
  | Listed (responses : list DNS).

#[export] Instance picked_len : PyLen Picked := fun p =>
  match p with
  | Bare response => len response
  | Listed responses => len responses
  end.

(** [responses[0]]: a dpkt message looks its index up as an attribute
    name, which fails on a number. *)
Definition first_item (p : Picked) : result DNS :=
  match p with
  | Bare _ => Raise TypeError
  | Listed (response :: _) => Ok response
  | Listed [] => Raise IndexError
  end.

(** [for response in responses]: a dpkt message has no iterator, so Python
    indexes it from 0. *)
Definition iterate (p : Picked) : result (list DNS) :=
  match p with
  | Bare _ => Raise TypeError
  | Listed responses => Ok responses
  end.

(** The [while] loop of [pick_responses]; one turn consumes one event. *)
Fixpoint pick_loop (started_at timeout : Z) (strategy : string)
    (wrong_answers : gset string) (sock : Socket)
    (picked_responses : list DNS) (remaining_timeout : Z) : M Picked :=
  if 0 <? remaining_timeout then
    ready ← select sock remaining_timeout;
    match ready with
    | Errors => throw (Exception "failed to read dns response")
    | Nothing => mret (Listed picked_responses)
    | Ins =>
        match sock with
        | [] => throw SocketTimeout
        | (_, data) :: sock =>
            let continue (picked_responses : list DNS) : M Picked :=
              now ← time_time;
              pick_loop started_at timeout strategy wrong_answers sock
                        picked_responses (started_at + timeout - now) in
            response ← lift (decode data);
            if String.eqb "pick-first" strategy then
              mret (Bare response)
            else if String.eqb "pick-later" strategy then
              continue [response]
            else if String.eqb "pick-right" strategy then
              right ← lift (is_right_response response wrong_answers);
              if right : bool then mret (Bare response)
              else continue picked_responses
            else if String.eqb "pick-right-later" strategy then
              right ← lift (is_right_response response wrong_answers);
              if right : bool then continue [response]
              else continue picked_responses
            else if String.eqb "pick-all" strategy then
              continue (picked_responses ++ [response])
            else
              throw (Exception ("unsupported strategy: " +:+ strategy))
        end
    end
  else mret (Listed picked_responses).

Definition pick_responses (sock : Socket) (timeout : Z) (strategy : string)
    (wrong_answers : gset string) : M Picked :=
  started_at ← time_time;
  now ← time_time;
  pick_loop started_at timeout strategy wrong_answers sock [] (started_at + timeout - now).

(** ** Resolution over UDP *)

(** What [resolve_over_udp] returns: a list of addresses or a list of
    address lists. *)
Inductive Answers : Type :=
  | Flat (addresses : list string)
  | Nested (lists : list (list string)).

Definition resolve_over_udp (domain server_ip : string) (server_port timeout : Z)
    (strategy : string) (wrong_answers : gset string) : M Answers :=
  sock ← socket_socket;
  id ← os_getpid;
  let request := {| req_id := id; req_name := domain; req_type := DNS_A |} in
  sock ← sendto sock request (server_ip, server_port);
  responses ← pick_responses sock timeout strategy wrong_answers;
  if len responses =? 1 then
    response ← lift (first_item responses);
    addresses ← lift (list_ipv4_addresses response);
    mret (Flat addresses)
  else if 1 <? len responses then
    responses ← lift (iterate responses);
    lists ← lift (mapM list_ipv4_addresses responses);
    mret (Nested lists)
  else mret (Flat []).

(** ** Wrong-answer discovery *)

(** What iterating over the value [resolve_over_udp] returned yields: an
    address when the value is a flat list, an address list otherwise. *)
Inductive Item : Type :=
  | Address (s : string)
  | Addresses (l : list string).

Definition items (answers : Answers) : list Item :=
  match answers with
  | Flat addresses => Address <$> addresses
  | Nested lists => Addresses <$> lists
  end.

#[export] Instance item_len : PyLen Item := fun i =>
  match i with
  | Address s => len s
  | Addresses l => len l
  end.

(** The one-character strings a string iterates to. *)
Fixpoint characters (s : string) : list string :=
  match s with
  | EmptyString => []
  | String c s' => String c EmptyString :: characters s'
  end.

(** [set(answers)] *)
Definition set_of (i : Item) : gset string :=
  match i with
  | Address s => list_to_set (characters s)
  | Addresses l => list_to_set l
  end.

Definition discover_once (domain server_ip : string) (server_port timeout : Z)
    : M (gset string) :=
  responses_answers ← resolve_over_udp domain server_ip server_port timeout "pick-all" ∅;
  let contains_right_answer :=
    existsb (fun answers => 1 <? len answers) (items responses_answers) in
  mret (if contains_right_answer then
          fold_left (fun wrong_answers answers =>
                       if len answers =? 1 then wrong_answers ∪ set_of answers
                       else wrong_answers)
                    (items responses_answers) ∅
        else ∅).

(** The [for] loop of [discover]. *)
Fixpoint discover_loop (domains : list string) (server_ip : string)
    (server_port timeout : Z) (wrong_answers : gset string) : M (gset string) :=
  match domains with
  | [] => mret wrong_answers
  | domain :: domains =>
      found ← discover_once domain server_ip server_port timeout;
      discover_loop domains server_ip server_port timeout (wrong_answers ∪ found)
  end.

Definition discover (domain : list string) (at_ : string) (timeout : Z)
    : M (gset string) :=
  '(server_ip, server_port) ← lift (parse_at at_);
  discover_loop domain server_ip server_port timeout ∅.

(** ** Vocabulary of the statements *)

(** The events of a socket or session that are messages [responses],
    arriving at the given times. *)
Definition datagrams (responses : list (Z * DNS)) : list (Z * Event) :=
  map (fun '(t, response) => (t, Datagram response)) responses.

(** Nothing becomes visible on the socket before [deadline]. *)
Definition silent_until (deadline : Z) (sock : list (Z * Event)) : Prop :=
  match sock with
  | [] => True
  | (arrival, _) :: _ => deadline <= arrival
  end.

(** Every event of [events] is there before [deadline]. *)
Definition all_before (deadline : Z) {E} (events : list (Z * E)) : Prop :=
  Forall (fun e => fst e < deadline) events.

(** The socket delivers exactly the messages [responses] in the window of
    [timeout] that opens at [from]: they come first, each inside the window,
    and what follows them is not visible before the window closes. *)
Definition delivers (from timeout : Z) (responses : list (Z * DNS))
    (sock : list (Z * Event)) : Prop :=
  exists late,
    sock = (datagrams responses ++ late) /\
    Forall (fun r => from <= fst r < from + timeout) responses /\
    silent_until (from + timeout) late.

(** The world as [sendto] leaves it, and the socket it gives. *)
Definition query_sent (domain server_ip : string) (server_port : Z) (w : World) : World :=
  {| clock := clock w; pid := pid w; network := tail (network w);
     sent := (sent w ++ [({| req_id := pid w; req_name := domain; req_type := DNS_A |},
                          (server_ip, server_port))]) |}.

(** What the network holds for the next socket, and that socket once the
    query has been sent. *)
Definition next_session (w : World) : list (Z * Event) := hd [] (network w).

Definition arrivals (w : World) : Socket := delayed (clock w) (next_session w).

(** The world in which [pick_responses] leaves the clock. *)
Definition waited (timeout : Z) (w : World) : World :=
  if 0 <? timeout then set_clock (clock w + timeout) w else w.

(** The five strategies the collector knows. *)
Definition strategies : list string :=
  ["pick-first"; "pick-later"; "pick-right"; "pick-right-later"; "pick-all"].

(** An address record. *)
Definition a_record (a b c d : byte) : RR :=
  {| rr_type := DNS_A; rdata := [a; b; c; d] |}.

(** ** Integers in text, in the words of the description *)

(** The white space of a byte string: tab, line feed, vertical tab, form
    feed, carriage return and space. *)
Definition white_space : list ascii :=
  ["009"; "010"; "011"; "012"; "013"; " "]%char.

Definition blank (s : string) : Prop :=
  Forall (fun c => In c white_space) (list_ascii_of_string s).

(** [s] is a decimal integer of value [n]: decimal digits, at least one,
    behind an optional sign; white space may come first, last, and between
    the sign and the digits.  The value is the one the digits have in base
    10, negated behind a minus sign. *)
Definition decimal_integer (s : string) (n : Z) : Prop :=
  exists before sign gap digits after u,
    s = before +:+ sign +:+ gap +:+ digits +:+ after /\
    blank before /\ blank gap /\ blank after /\
    DecimalString.NilZero.uint_of_string digits = Some u /\
    (sign = "" /\ n = Z.of_uint u \/
     sign = "+" /\ n = Z.of_uint u \/
     sign = "-" /\ n = - Z.of_uint u).

(** ** Discovery, in the words of its description *)

(** What the address lists collected for one domain contribute: when one of
    them has more than one address, the single address of every list that
    has exactly one; nothing otherwise. *)
Definition contribution (lists : list (list string)) : gset string :=
  if existsb (fun addresses => (1 <? length addresses)%nat) lists then
    ⋃ (map (fun addresses =>
              match addresses with
              | [address] => {[address]}
              | _ => ∅
              end) lists)
  else ∅.

(** The session delivers, inside the window, messages whose address lists
    are [lists], in this order. *)
Definition observes (timeout : Z) (session : list (Z * Event))
    (lists : list (list string)) : Prop :=
  exists responses,
    delivers 0 timeout responses session /\
    mapM list_ipv4_addresses (snd <$> responses) = Ok lists.

(** ** One turn of the collector *)

(** The strategy table of [pick_loop] written out on runs: what one turn
    does with the message it received, where [w] is the world once the
    message is read and [continue] is the rest of the loop run from that
    world with the given held list.  Lemma [pick_loop_cons] shows that
    this is what [pick_loop] does. *)
Definition dispatch (strategy : string) (wrong_answers : gset string)
    (response : DNS) (picked : list DNS) (w : World)
    (continue : list DNS -> result Picked * World) : result Picked * World :=
  if String.eqb "pick-first" strategy then (Ok (Bare response), w)
  else if String.eqb "pick-later" strategy then continue [response]
  else if String.eqb "pick-right" strategy then
    match is_right_response response wrong_answers with
    | Ok true => (Ok (Bare response), w)
    | Ok false => continue picked
    | Raise e => (Raise e, w)
    end
  else if String.eqb "pick-right-later" strategy then
    match is_right_response response wrong_answers with
    | Ok true => continue [response]
    | Ok false => continue picked
    | Raise e => (Raise e, w)
    end
  else if String.eqb "pick-all" strategy then continue (picked ++ [response])
  else (Raise (Exception ("unsupported strategy: " +:+ strategy)), w).

(** ** The messages and the world of the examples *)

Definition R1 : DNS :=
  {| dns_id := 4242; an := [a_record x01 x01 x01 x01]; sections_size := 33 |}.

Definition R2 : DNS :=
  {| dns_id := 4242; an := [a_record x02 x02 x02 x02]; sections_size := 33 |}.

Definition R23 : DNS :=
  {| dns_id := 4242; an := [a_record x02 x02 x02 x02; a_record x03 x03 x03 x03];
     sections_size := 49 |}.

(** A world whose network answers the next query with [session]. *)
Definition example_world (session : list (Z * Event)) : World :=
  {| clock := 1000; pid := 4242; network := [session]; sent := [] |}.

Definition R9 : DNS :=
  {| dns_id := 4242; an := [a_record x09 x09 x09 x09]; sections_size := 33 |}.

Definition R98 : DNS :=
  {| dns_id := 4242; an := [a_record x09 x09 x09 x09; a_record x08 x08 x08 x08];
     sections_size := 49 |}.

(** A world whose network answers the first query with a forged and a
    genuine message and the second with two single-address messages. *)
Definition discovery_world : World :=
  {| clock := 1000; pid := 4242;
     network := [[(10, Datagram R9); (40, Datagram R98)];
                 [(10, Datagram R1); (40, Datagram R2)]];
     sent := [] |}.

(** The world a first discovery leaves behind, with a network that answers
    again as it answered the first time. *)
Definition second_call_world : World :=
  let left := snd (discover ["twitter.com"; "youtube.com"] "8.8.8.8" 1000 discovery_world) in
  {| clock := clock left; pid := pid left + 1;
     network := network discovery_world; sent := sent left |}.

(** ** Vocabulary of the further properties *)

(** The entry [resolve_over_udp] adds to the log of what was sent. *)
Definition the_query (domain server_ip : string) (server_port : Z) (w : World)
    : Request * (string * Z) :=
  ({| req_id := pid w; req_name := domain; req_type := DNS_A |}, (server_ip, server_port)).

(** The classifier answered that the message is right. *)
Definition genuine (wrong_answers : gset string) (response : DNS) : bool :=
  match is_right_response response wrong_answers with
  | Ok true => true
  | _ => false
  end.

(** The classifier answers on every one of the messages. *)
Definition classified (wrong_answers : gset string) (responses : list (Z * DNS)) : Prop :=
  Forall (fun r => exists right, is_right_response (snd r) wrong_answers = Ok right)
         responses.

(** [str(n)] for an integer [n]: its decimal digits, without leading
    zeros, behind a minus sign when it is negative. *)
Definition str_of_int (n : Z) : string :=
  DecimalString.NilZero.string_of_int (Z.to_int n).

(** A dotted quad: four numbers from 0 to 255, each written in decimal
    without leading zeros, separated by dots. *)
Definition dotted_quad (s : string) : Prop :=
  exists a b c d : Z,
    0 <= a < 256 /\ 0 <= b < 256 /\ 0 <= c < 256 /\ 0 <= d < 256 /\
    s = str_of_int a +:+ "." +:+ str_of_int b +:+ "." +:+ str_of_int c +:+ "."
        +:+ str_of_int d.

(** ['%s:%s' % (server_ip, server_port)], the way [resolve] writes the
    endpoint in its log line. *)
Definition endpoint_text (server_ip : string) (server_port : Z) : string :=
  server_ip +:+ ":" +:+ str_of_int server_port.

(** The value of the decimal digits [d] read after digits of value [acc]. *)
Fixpoint uint_value (acc : Z) (d : Decimal.uint) : Z :=
  match d with
  | Decimal.Nil => acc
  | Decimal.D0 d => uint_value (10 * acc + 0) d
  | Decimal.D1 d => uint_value (10 * acc + 1) d
  | Decimal.D2 d => uint_value (10 * acc + 2) d
  | Decimal.D3 d => uint_value (10 * acc + 3) d
  | Decimal.D4 d => uint_value (10 * acc + 4) d
  | Decimal.D5 d => uint_value (10 * acc + 5) d
  | Decimal.D6 d => uint_value (10 * acc + 6) d
  | Decimal.D7 d => uint_value (10 * acc + 7) d
  | Decimal.D8 d => uint_value (10 * acc + 8) d
  | Decimal.D9 d => uint_value (10 * acc + 9) d
  end.

(** ** Resolution over a stream, and the dispatch of [resolve] *)

(** [struct.error] is an exception class of its own; it is written here as
    an [Exception] that carries the name of the class. *)
Definition struct_error : exn := Exception "struct.error".

(** The byte of value [n mod 256]. *)
Definition byte_of (n : Z) : byte :=
  match Byte.of_N (Z.to_N (n mod 256)) with
  | Some b => b
  | None => x00
  end.

Definition byte_value (b : byte) : Z := Z.of_N (Byte.to_N b).

(** [struct.pack('>h', n)]: a signed 16-bit integer, high byte first. *)
Definition struct_pack_h (n : Z) : result (list byte) :=
  if (-32768 <=? n) && (n <=? 32767) then Ok [byte_of (n / 256); byte_of n]
  else Raise struct_error.

(** [struct.unpack('>h', data)[0]]: exactly two bytes. *)
Definition struct_unpack_h (data : list byte) : result Z :=
  match data with
  | [high; low] =>
      let n := 256 * byte_value high + byte_value low in
      Ok (if n <? 32768 then n else n - 65536)
  | _ => Raise struct_error
  end.

(** What is at the other end of a stream socket: whether it accepts the
    connection, the bytes it sends, and whether it then closes the
    connection or stays silent. *)
Record Stream : Type := { accepts : bool; incoming : list byte; closes : bool }.

(** The host: the world of the datagram sockets, the peers of the stream
    sockets yet to be connected, and the log of what was written to
    streams, each with its destination. *)
Record Host : Type := {
  datagram_world : World;
  streams : list Stream;
  written : list (list byte * (string * Z))
}.

Definition T (A : Type) : Type := Host -> result A * Host.

#[export] Instance T_ret : MRet T := fun A a h => (Ok a, h).
#[export] Instance T_bind : MBind T := fun A B f m h =>
  match m h with
  | (Ok a, h') => f a h'
  | (Raise e, h') => (Raise e, h')
  end.

Definition fail {A} (e : exn) : T A := fun h => (Raise e, h).
Definition returned {A} (r : result A) : T A := fun h => (r, h).

(** A computation on datagram sockets, run on the host. *)
Definition over_datagrams {A} (m : M A) : T A := fun h =>
  let (r, w) := m (datagram_world h) in
  (r, {| datagram_world := w; streams := streams h; written := written h |}).

(** A stream socket: its time-out, where it is connected, the bytes not
    yet read, and whether the peer closes after them. *)
Record Connection : Type := {
  timeout_of : Z;
  remote : string * Z;
  unread : list byte;
  peer_closes : bool
}.

Definition socket_stream : T Connection :=
  mret {| timeout_of := 0; remote := ("", 0); unread := []; peer_closes := false |}.

(** [sock.settimeout(timeout)]: a negative time-out is refused. *)
Definition settimeout (sock : Connection) (timeout : Z) : T Connection :=
  if timeout <? 0 then fail (ValueError "Timeout value out of range")
  else mret {| timeout_of := timeout; remote := remote sock;
               unread := unread sock; peer_closes := peer_closes sock |}.

(** [sock.connect(address)]: takes the next peer.  With a time-out of zero
    the socket does not block and the connection is still in progress when
    [connect] gives up; otherwise the peer accepts or not. *)
Definition connect (sock : Connection) (address : string * Z) : T Connection := fun h =>
  match streams h with
  | [] => (Raise SocketError, h)
  | peer :: others =>
      let h' := {| datagram_world := datagram_world h; streams := others;
                   written := written h |} in
      if (timeout_of sock =? 0) || negb (accepts peer) then (Raise SocketError, h')
      else (Ok {| timeout_of := timeout_of sock; remote := address;
                  unread := incoming peer; peer_closes := closes peer |}, h')
  end.

(** [sock.send(data)] *)
Definition send (sock : Connection) (data : list byte) : T unit := fun h =>
  (Ok tt, {| datagram_world := datagram_world h; streams := streams h;
             written := written h ++ [(data, remote sock)] |}).

(** [rfile.read(size)]: [size] bytes, or fewer when the peer closes first;
    everything up to the end when [size] is negative; a time-out when the
    bytes asked for do not come and the peer does not close. *)
Definition read (sock : Connection) (size : Z) : T (list byte * Connection) :=
  let rest (n : nat) :=
    {| timeout_of := timeout_of sock; remote := remote sock;
       unread := drop n (unread sock); peer_closes := peer_closes sock |} in
  if size <? 0 then
    if peer_closes sock then mret (unread sock, rest (length (unread sock)))
    else fail SocketTimeout
  else if size <=? len (unread sock) then
    mret (take (Z.to_nat size) (unread sock), rest (Z.to_nat size))
  else if peer_closes sock then mret (unread sock, rest (length (unread sock)))
  else fail SocketTimeout.

Section Codec.

(** The codec of dpkt is outside the program: [encode] stands for
    [str(request)] and [decode] for [dpkt.dns.DNS(data)]; either can
    raise. *)
Variable encode : Request -> result (list byte).
Variable decode : list byte -> result DNS.

Definition resolve_over_tcp (domain server_ip : string) (server_port timeout : Z)
    : T (list string) :=
  sock ← socket_stream;
  sock ← settimeout sock timeout;
  id ← over_datagrams os_getpid;
  let request := {| req_id := id; req_name := domain; req_type := DNS_A |} in
  sock ← connect sock (server_ip, server_port);
  data ← returned (encode request);
  prefix ← returned (struct_pack_h (len data));
  send sock (prefix ++ data);;
  '(data, sock) ← read sock 2;
  size ← returned (struct_unpack_h data);
  '(data, sock) ← read sock size;
  response ← returned (decode data);
  if negb (len response =? 0) then returned (list_ipv4_addresses response)
  else mret [].

Definition resolve (domain server_type at_ : string) (timeout : Z) (strategy : string)
    (wrong_answer : option (list string)) : T Answers :=
  '(server_ip, server_port) ← returned (parse_at at_);
  if String.eqb "udp" server_type then
    over_datagrams
      (resolve_over_udp domain server_ip server_port timeout strategy
         (match wrong_answer with
          | Some (address :: addresses) => list_to_set (address :: addresses)
          | Some [] | None => ∅
          end))
  else if String.eqb "tcp" server_type then
    addresses ← resolve_over_tcp domain server_ip server_port timeout;
    mret (Flat addresses)
  else fail (Exception ("unsupported server type: " +:+ server_type)).

(** The part of [resolve_over_tcp] that follows [send], on the connected
    socket: lemma [resolve_over_tcp_connected] shows that this is how
    [resolve_over_tcp] goes on. *)
Definition read_reply (sock : Connection) : T (list string) :=
  '(data, sock) ← read sock 2;
  size ← returned (struct_unpack_h data);
  '(data, sock) ← read sock size;
  response ← returned (decode data);
  if negb (len response =? 0) then returned (list_ipv4_addresses response)
  else mret [].

End Codec.

(** The request a resolve on host [h] makes for [domain]. *)
Definition request_of (domain : string) (h : Host) : Request :=
  {| req_id := pid (datagram_world h); req_name := domain; req_type := DNS_A |}.

(** The socket connected to [peer] at [address], and the host once [data]
    has been written to it. *)
Definition connected (timeout : Z) (address : string * Z) (peer : Stream) : Connection :=
  {| timeout_of := timeout; remote := address;
     unread := incoming peer; peer_closes := closes peer |}.

Definition after_send (data : list byte) (address : string * Z) (h : Host) : Host :=
  {| datagram_world := datagram_world h; streams := tail (streams h);
     written := written h ++ [(data, address)] |}.

(** The host once a connection has been attempted. *)
Definition after_connect (h : Host) : Host :=
  {| datagram_world := datagram_world h; streams := tail (streams h);
     written := written h |}.

(** A codec and a host for the examples: every request is one byte long,
    and two byte strings decode, to [R9] and to [R98]. *)
Definition example_encode (request : Request) : result (list byte) := Ok [x2a].

Definition example_decode (data : list byte) : result DNS :=
  match data with
  | [x09] => Ok R9
  | [x09; x08] => Ok R98
  | _ => Raise UnpackError
  end.

Definition example_host (peer : Stream) : Host :=
  {| datagram_world := example_world [(10, Datagram R1)]; streams := [peer];
     written := [] |}.

(** ** Proof steps *)

(** Settles a comparison of the goal that holds by arithmetic. *)
Ltac holds :=
  match goal with
  | |- context [?a <? ?b] =>
      replace (a <? b) with true by (symmetry; apply Z.ltb_lt; lia)
  end.

(** Settles a test [_ =? 1] of the goal that fails by arithmetic. *)
Ltac not_one :=
  match goal with
  | |- context [?a =? 1] =>
      replace (a =? 1) with false by (symmetry; apply Z.eqb_neq; lia)
  end.

(** One case for each way the tests on [strategy] can go. *)
Ltac by_strategy strategy :=
  repeat match goal with
         | |- context [String.eqb ?a strategy] => destruct (String.eqb a strategy)
         end.

(** Unfolds the binds of the state monad. *)
Ltac run := unfold mbind, M_bind, lift.

(** ** The collector, one turn at a time *)

Lemma set_clock_set_clock t u w : set_clock t (set_clock u w) = set_clock t w.
Proof. reflexivity. Qed.

Lemma set_clock_same w : set_clock (clock w) w = w.
Proof. by destruct w. Qed.

(** With nothing visible before the deadline the loop returns what it holds. *)
Lemma pick_loop_silent started_at timeout strategy wrong_answers sock picked remaining w :
  silent_until (clock w + remaining) sock ->
  pick_loop started_at timeout strategy wrong_answers sock picked remaining w =
  (Ok (Listed picked), if 0 <? remaining then set_clock (clock w + remaining) w else w).
Proof.
  intros Hsilent.
  destruct sock as [|[arrival event] sock]; cbn; destruct (0 <? remaining) eqn:Hrem; try done.
  cbn in Hsilent. unfold mbind, M_bind, select.
  by rewrite (proj2 (Z.ltb_ge _ _) Hsilent).
Qed.

(** One turn of the loop, whatever is at the head of the socket. *)
Lemma pick_loop_cons started_at timeout strategy wrong_answers arrival event sock picked
    remaining w :
  pick_loop started_at timeout strategy wrong_answers ((arrival, event) :: sock) picked
            remaining w =
  if 0 <? remaining then
    if arrival <? clock w + remaining then
      let w' := set_clock (Z.max (clock w) arrival) w in
      match event with
      | Datagram response =>
          dispatch strategy wrong_answers response picked w'
            (fun picked' =>
               pick_loop started_at timeout strategy wrong_answers sock picked'
                         (started_at + timeout - clock w') w')
      | Undecodable => (Raise UnpackError, w')
      | Exceptional => (Raise (Exception "failed to read dns response"), w')
      end
    else (Ok (Listed picked), set_clock (clock w + remaining) w)
  else (Ok (Listed picked), w).
Proof.
  cbn -[String.eqb]. destruct (0 <? remaining); [|done].
  unfold mbind at 1. unfold M_bind at 1. unfold select.
  destruct (arrival <? clock w + remaining); [|done].
  destruct event as [response| |]; [|done..].
  cbn -[String.eqb]. unfold dispatch.
  by_strategy strategy; try reflexivity;
    run; by destruct (is_right_response response wrong_answers) as [[]|].
Qed.

(** One turn of the loop on a message that is there before the deadline. *)
Lemma pick_loop_datagram started_at timeout strategy wrong_answers arrival response sock picked w :
  clock w < started_at + timeout ->
  arrival < started_at + timeout ->
  pick_loop started_at timeout strategy wrong_answers
            ((arrival, Datagram response) :: sock) picked
            (started_at + timeout - clock w) w =
  let w' := set_clock (Z.max (clock w) arrival) w in
  dispatch strategy wrong_answers response picked w'
    (fun picked' =>
       pick_loop started_at timeout strategy wrong_answers sock picked'
                 (started_at + timeout - clock w') w').
Proof.
  intros Hclock Harrival. rewrite pick_loop_cons.
  by do 2 holds.
Qed.

(** ** The collector, strategy by strategy *)

Lemma pick_responses_unfold sock timeout strategy wrong_answers w :
  pick_responses sock timeout strategy wrong_answers w =
  pick_loop (clock w) timeout strategy wrong_answers sock []
            (clock w + timeout - clock w) w.
Proof. reflexivity. Qed.

(** pick-all appends every message that is there before the deadline. *)
Lemma pick_loop_pick_all started_at timeout wrong_answers responses late :
  all_before (started_at + timeout) responses ->
  silent_until (started_at + timeout) late ->
  forall picked w,
  clock w < started_at + timeout ->
  pick_loop started_at timeout "pick-all" wrong_answers
            (datagrams responses ++ late) picked
            (started_at + timeout - clock w) w =
  (Ok (Listed (picked ++ (snd <$> responses))), set_clock (started_at + timeout) w).
Proof.
  intros Hbefore Hlate.
  induction Hbefore as [|[arrival response] responses Harrival _ IH]; intros picked w Hclock.
  - cbn [datagrams map app fmap list_fmap]. rewrite pick_loop_silent.
    + rewrite app_nil_r. holds.
      do 2 f_equal. lia.
    + by replace (clock w + _) with (started_at + timeout) by lia.
  - cbn [datagrams map app]. cbn in Harrival.
    rewrite pick_loop_datagram by done. unfold dispatch. cbn -[pick_loop Z.max].
    fold (datagrams responses).
    rewrite (IH _ (set_clock (Z.max (clock w) arrival) w)) by (cbn; lia).
    by rewrite <- app_assoc.
Qed.

(** pick-later holds the last message that was there before the deadline. *)
Lemma pick_loop_pick_later started_at timeout wrong_answers responses late :
  all_before (started_at + timeout) responses ->
  silent_until (started_at + timeout) late ->
  forall picked w,
  clock w < started_at + timeout ->
  pick_loop started_at timeout "pick-later" wrong_answers
            (datagrams responses ++ late) picked
            (started_at + timeout - clock w) w =
  (Ok (Listed (match last responses with Some r => [snd r] | None => picked end)),
   set_clock (started_at + timeout) w).
Proof.
  intros Hbefore Hlate.
  induction Hbefore as [|[arrival response] responses Harrival _ IH]; intros picked w Hclock.
  - cbn [datagrams map app last]. rewrite pick_loop_silent.
    + holds.
      do 2 f_equal. lia.
    + by replace (clock w + _) with (started_at + timeout) by lia.
  - cbn [datagrams map app]. cbn in Harrival.
    rewrite pick_loop_datagram by done. unfold dispatch. cbn -[pick_loop Z.max last].
    fold (datagrams responses).
    rewrite (IH _ (set_clock (Z.max (clock w) arrival) w)) by (cbn; lia).
    rewrite last_cons. by destruct (last responses).
Qed.

Lemma delayed_datagrams now responses :
  delayed now (datagrams responses) = datagrams (delayed now responses).
Proof.
  unfold delayed, datagrams. rewrite !map_map. apply map_ext. by intros [].
Qed.

Lemma delayed_responses now (responses : list (Z * DNS)) :
  snd <$> delayed now responses = snd <$> responses.
Proof.
  unfold delayed. induction responses as [|[] ? IH]; [done|]. cbn. by rewrite <- IH.
Qed.

Lemma delivers_delayed now timeout responses session :
  delivers 0 timeout responses session ->
  delivers now timeout (delayed now responses) (delayed now session).
Proof.
  intros (late & -> & Hin & Hlate). exists (delayed now late). split_and!.
  - unfold delayed at 1. by rewrite map_app, <- delayed_datagrams.
  - unfold delayed. apply Forall_map. eapply Forall_impl; [exact Hin|].
    intros [] ?; cbn in *; lia.
  - destruct late as [|[] ?]; cbn in *; [done|lia].
Qed.

Lemma delivers_window from timeout response responses sock :
  delivers from timeout (response :: responses) sock -> 0 < timeout.
Proof. intros (_ & _ & Hin & _). apply Forall_cons in Hin as [Hin _]. cbn in Hin. lia. Qed.

Lemma delivers_all_before from timeout responses sock :
  delivers from timeout responses sock -> all_before (from + timeout) responses.
Proof.
  intros (_ & _ & Hin & _). eapply Forall_impl; [exact Hin|]. intros ? ?; cbn in *; lia.
Qed.

(** ** The collector on a socket that delivers given messages *)

Lemma pick_responses_silent sock timeout strategy wrong_answers w :
  silent_until (clock w + timeout) sock ->
  pick_responses sock timeout strategy wrong_answers w = (Ok (Listed []), waited timeout w).
Proof.
  intros Hsilent. rewrite pick_responses_unfold.
  replace (clock w + timeout - clock w) with timeout by lia.
  by rewrite pick_loop_silent.
Qed.

Lemma pick_responses_pick_all sock timeout wrong_answers responses w :
  delivers (clock w) timeout responses sock ->
  pick_responses sock timeout "pick-all" wrong_answers w =
  (Ok (Listed (snd <$> responses)), waited timeout w).
Proof.
  intros Hdelivers. destruct responses as [|response responses].
  - destruct Hdelivers as (late & -> & _ & Hlate). by apply pick_responses_silent.
  - pose proof (delivers_window _ _ _ _ _ Hdelivers) as Htimeout.
    pose proof (delivers_all_before _ _ _ _ Hdelivers) as Hbefore.
    destruct Hdelivers as (late & -> & _ & Hlate).
    rewrite pick_responses_unfold, pick_loop_pick_all by (done || lia).
    unfold waited. by holds.
Qed.

Lemma pick_responses_pick_later sock timeout wrong_answers responses w :
  delivers (clock w) timeout responses sock ->
  pick_responses sock timeout "pick-later" wrong_answers w =
  (Ok (Listed (match last responses with Some r => [snd r] | None => [] end)),
   waited timeout w).
Proof.
  intros Hdelivers. destruct responses as [|response responses].
  - destruct Hdelivers as (late & -> & _ & Hlate). by apply pick_responses_silent.
  - pose proof (delivers_window _ _ _ _ _ Hdelivers) as Htimeout.
    pose proof (delivers_all_before _ _ _ _ Hdelivers) as Hbefore.
    destruct Hdelivers as (late & -> & _ & Hlate).
    rewrite pick_responses_unfold, pick_loop_pick_later by (done || lia).
    unfold waited. by holds.
Qed.

(** ** Resolution: what happens to what the collector returns *)

Lemma resolve_over_udp_unfold domain server_ip server_port timeout strategy wrong_answers w :
  resolve_over_udp domain server_ip server_port timeout strategy wrong_answers w =
  match pick_responses (arrivals w) timeout strategy wrong_answers
                       (query_sent domain server_ip server_port w) with
  | (Ok responses, w') =>
      (if len responses =? 1 then Flat <$> (first_item responses ≫= list_ipv4_addresses)
       else if 1 <? len responses then Nested <$> (iterate responses ≫= mapM list_ipv4_addresses)
       else Ok (Flat []), w')
  | (Raise e, w') => (Raise e, w')
  end.
Proof.
  unfold resolve_over_udp, mbind at 1 2 3 4, M_bind at 1 2 3 4. cbn [socket_socket mret M_ret os_getpid sendto app].
  change {| clock := clock w; pid := pid w; network := tail (network w); sent := _ |}
    with (query_sent domain server_ip server_port w).
  change (delayed (clock w) (hd [] (network w))) with (arrivals w).
  destruct (pick_responses _ _ _ _ _) as [[responses|e] w']; [|done].
  destruct (len responses =? 1).
  - unfold mbind, M_bind, lift. destruct (first_item responses); [|done]. cbn.
    by destruct (list_ipv4_addresses _).
  - destruct (1 <? len responses); [|done].
    unfold mbind, M_bind, lift. destruct (iterate responses); [|done]. cbn.
    by destruct (mapM _ _).
Qed.

(** A list from the collector is shaped by its length. *)
Lemma resolve_over_udp_listed domain server_ip server_port timeout strategy wrong_answers w responses w' :
  pick_responses (arrivals w) timeout strategy wrong_answers
                 (query_sent domain server_ip server_port w) = (Ok (Listed responses), w') ->
  resolve_over_udp domain server_ip server_port timeout strategy wrong_answers w =
  (match responses with
   | [] => Ok (Flat [])
   | [response] => Flat <$> list_ipv4_addresses response
   | _ => Nested <$> mapM list_ipv4_addresses responses
   end, w').
Proof.
  intros Hpicked. rewrite resolve_over_udp_unfold, Hpicked.
  destruct responses as [|r1 [|r2 responses]]; try reflexivity.
  unfold len, picked_len, len, list_len. cbn [length].
  not_one.
  by holds.
Qed.

(** A message that is not in a list cannot be shaped. *)
Lemma resolve_over_udp_bare domain server_ip server_port timeout strategy wrong_answers w response w' :
  pick_responses (arrivals w) timeout strategy wrong_answers
                 (query_sent domain server_ip server_port w) = (Ok (Bare response), w') ->
  resolve_over_udp domain server_ip server_port timeout strategy wrong_answers w =
  (Raise TypeError, w').
Proof.
  intros Hpicked. rewrite resolve_over_udp_unfold, Hpicked.
  unfold len, picked_len, len, dns_len.
  not_one.
  by holds.
Qed.

(** ** pick-first and pick-right: the message outside a list *)

Lemma pick_responses_pick_first sock timeout wrong_answers arrival response rest w :
  sock = (arrival, Datagram response) :: rest ->
  clock w <= arrival < clock w + timeout ->
  pick_responses sock timeout "pick-first" wrong_answers w =
  (Ok (Bare response), set_clock arrival w).
Proof.
  intros -> Harrival. rewrite pick_responses_unfold, pick_loop_datagram by lia.
  unfold dispatch. cbn. by replace (Z.max (clock w) arrival) with arrival by lia.
Qed.

(** C1: with pick-first and R1 = {1.1.1.1} then R2 = {2.2.2.2} inside the
    window, the collector hands back R1 itself, not a list holding it, and
    the resolve raises instead of returning R1's address list. *)
Theorem pick_first_resolve_raises :
  list_ipv4_addresses R1 = Ok ["1.1.1.1"] /\
  list_ipv4_addresses R2 = Ok ["2.2.2.2"] /\
  fst (pick_responses (arrivals (example_world [(10, Datagram R1); (20, Datagram R2)]))
         1000 "pick-first" ∅
         (query_sent "twitter.com" "8.8.8.8" 53
            (example_world [(10, Datagram R1); (20, Datagram R2)]))) = Ok (Bare R1) /\
  fst (resolve_over_udp "twitter.com" "8.8.8.8" 53 1000 "pick-first" ∅
         (example_world [(10, Datagram R1); (20, Datagram R2)])) = Raise TypeError.
Proof. split_and!; reflexivity. Qed.

(** C2: with pick-right the collector selects exactly one message, R2, and
    hands it back outside a list; the resolve raises instead of returning
    R2's flat address list. *)
Theorem pick_right_one_selected_raises :
  fst (pick_responses (arrivals (example_world [(10, Datagram R1); (20, Datagram R2)]))
         1000 "pick-right" {["1.1.1.1"]}
         (query_sent "twitter.com" "8.8.8.8" 53
            (example_world [(10, Datagram R1); (20, Datagram R2)]))) = Ok (Bare R2) /\
  list_ipv4_addresses R2 = Ok ["2.2.2.2"] /\
  fst (resolve_over_udp "twitter.com" "8.8.8.8" 53 1000 "pick-right" {["1.1.1.1"]}
         (example_world [(10, Datagram R1); (20, Datagram R2)]))
  = Raise TypeError.
Proof. split_and!; vm_compute; reflexivity. Qed.

(** ** The deadline passes in silence *)

Lemma silent_arrivals domain server_ip server_port timeout w :
  silent_until timeout (next_session w) ->
  silent_until (clock (query_sent domain server_ip server_port w) + timeout) (arrivals w).
Proof.
  unfold arrivals, delayed. destruct (next_session w) as [|[] ?]; cbn; [done|lia].
Qed.

(** C6: whatever the strategy and the wrong-answer set, when nothing becomes
    visible on the socket before the deadline the collector returns normally
    with the empty list, and the resolve returns the empty list. *)
Theorem no_response_gives_empty_result
    (strategy : string) (wrong_answers : gset string) (timeout : Z) :
  (forall sock w,
     silent_until (clock w + timeout) sock ->
     fst (pick_responses sock timeout strategy wrong_answers w) = Ok (Listed [])) /\
  (forall domain server_ip server_port w,
     silent_until timeout (next_session w) ->
     fst (resolve_over_udp domain server_ip server_port timeout strategy wrong_answers w)
     = Ok (Flat [])).
Proof.
  split.
  - intros sock w Hsilent. by rewrite pick_responses_silent.
  - intros domain server_ip server_port w Hsilent.
    by erewrite resolve_over_udp_listed
      by (apply pick_responses_silent; by apply silent_arrivals).
Qed.

Lemma no_response_gives_empty_result_witness :
  silent_until 1000 (next_session (example_world [(1500, Datagram R1)])) /\
  fst (resolve_over_udp "twitter.com" "8.8.8.8" 53 1000 "pick-right-later" {["1.1.1.1"]}
         (example_world [(1500, Datagram R1)])) = Ok (Flat []).
Proof.
  split; [cbn; lia|].
  apply (proj2 (no_response_gives_empty_result "pick-right-later" {["1.1.1.1"]} 1000)).
  cbn. lia.
Defined.

(** ** pick-later *)

(** C7: with pick-later one turn of the loop replaces the held candidate by
    the message just received; with R1 then R2 = {2.2.2.2} inside the window
    the collector ends holding R2 alone and the resolve returns R2's address
    list. *)
Theorem pick_later_returns_last
    (domain server_ip : string) (server_port timeout : Z)
    (wrong_answers : gset string) (w : World) (d1 d2 : Z) (r1 r2 : DNS) :
  delivers 0 timeout [(d1, r1); (d2, r2)] (next_session w) ->
  list_ipv4_addresses r1 = Ok ["1.1.1.1"] ->
  list_ipv4_addresses r2 = Ok ["2.2.2.2"] ->
  (forall started_at arrival response sock held w',
     clock w' < started_at + timeout -> arrival < started_at + timeout ->
     pick_loop started_at timeout "pick-later" wrong_answers
               ((arrival, Datagram response) :: sock) held
               (started_at + timeout - clock w') w' =
     pick_loop started_at timeout "pick-later" wrong_answers sock [response]
               (started_at + timeout - Z.max (clock w') arrival)
               (set_clock (Z.max (clock w') arrival) w')) /\
  fst (pick_responses (arrivals w) timeout "pick-later" wrong_answers
         (query_sent domain server_ip server_port w)) = Ok (Listed [r2]) /\
  fst (resolve_over_udp domain server_ip server_port timeout "pick-later" wrong_answers w)
  = Ok (Flat ["2.2.2.2"]).
Proof.
  intros Hdelivers _ Hr2.
  assert (pick_responses (arrivals w) timeout "pick-later" wrong_answers
            (query_sent domain server_ip server_port w)
          = (Ok (Listed [r2]), waited timeout (query_sent domain server_ip server_port w)))
    as Hpicked.
  { apply (delivers_delayed (clock w)) in Hdelivers.
    exact (pick_responses_pick_later (arrivals w) timeout wrong_answers _
             (query_sent domain server_ip server_port w) Hdelivers). }
  split_and!.
  - intros. by rewrite pick_loop_datagram.
  - by rewrite Hpicked.
  - erewrite resolve_over_udp_listed by exact Hpicked. cbn. by rewrite Hr2.
Qed.

Lemma pick_later_returns_last_witness :
  fst (resolve_over_udp "twitter.com" "8.8.8.8" 53 1000 "pick-later" ∅
         (example_world [(10, Datagram R1); (20, Datagram R2)]))
  = Ok (Flat ["2.2.2.2"]).
Proof.
  refine (proj2 (proj2 (pick_later_returns_last "twitter.com" "8.8.8.8" 53 1000 ∅
                          (example_world [(10, Datagram R1); (20, Datagram R2)])
                          10 20 R1 R2 _ _ _))); [|reflexivity..].
  exists []. split_and!; [reflexivity| |exact I].
  repeat constructor; cbn; lia.
Defined.

(** ** pick-all *)

(** C8: pick-all collects every message delivered inside the window, in
    arrival order; with R1 = {1.1.1.1}, R2 = {2.2.2.2, 3.3.3.3},
    R3 = {1.1.1.1} the resolve returns their three address lists in that
    order. *)
Theorem pick_all_keeps_arrival_order
    (domain server_ip : string) (server_port timeout : Z)
    (wrong_answers : gset string) (w : World) :
  (forall responses,
     delivers 0 timeout responses (next_session w) ->
     fst (pick_responses (arrivals w) timeout "pick-all" wrong_answers
            (query_sent domain server_ip server_port w))
     = Ok (Listed (snd <$> responses))) /\
  (forall d1 d2 d3 r1 r2 r3,
     delivers 0 timeout [(d1, r1); (d2, r2); (d3, r3)] (next_session w) ->
     list_ipv4_addresses r1 = Ok ["1.1.1.1"] ->
     list_ipv4_addresses r2 = Ok ["2.2.2.2"; "3.3.3.3"] ->
     list_ipv4_addresses r3 = Ok ["1.1.1.1"] ->
     fst (resolve_over_udp domain server_ip server_port timeout "pick-all" wrong_answers w)
     = Ok (Nested [["1.1.1.1"]; ["2.2.2.2"; "3.3.3.3"]; ["1.1.1.1"]])).
Proof.
  assert (forall responses,
     delivers 0 timeout responses (next_session w) ->
     pick_responses (arrivals w) timeout "pick-all" wrong_answers
       (query_sent domain server_ip server_port w)
     = (Ok (Listed (snd <$> responses)),
        waited timeout (query_sent domain server_ip server_port w))) as Hpicked.
  { intros responses Hdelivers.
    apply (delivers_delayed (clock w)) in Hdelivers.
    rewrite (pick_responses_pick_all (arrivals w) timeout wrong_answers _
               (query_sent domain server_ip server_port w) Hdelivers).
    by rewrite delayed_responses. }
  split.
  - intros responses Hdelivers. by rewrite (Hpicked _ Hdelivers).
  - intros d1 d2 d3 r1 r2 r3 Hdelivers Hr1 Hr2 Hr3.
    rewrite (resolve_over_udp_listed _ _ _ _ _ _ _ _ _ (Hpicked _ Hdelivers)).
    cbn. by rewrite Hr1, Hr2, Hr3.
Qed.

Lemma pick_all_keeps_arrival_order_witness :
  fst (resolve_over_udp "twitter.com" "8.8.8.8" 53 1000 "pick-all" ∅
         (example_world [(10, Datagram R1); (20, Datagram R23); (30, Datagram R1)]))
  = Ok (Nested [["1.1.1.1"]; ["2.2.2.2"; "3.3.3.3"]; ["1.1.1.1"]]).
Proof.
  refine (proj2 (pick_all_keeps_arrival_order "twitter.com" "8.8.8.8" 53 1000 ∅
                   (example_world [(10, Datagram R1); (20, Datagram R23); (30, Datagram R1)]))
                10 20 30 R1 R23 R1 _ _ _ _); [|reflexivity..].
  exists []. split_and!; [reflexivity| |exact I].
  repeat constructor; cbn; lia.
Defined.

(** ** A strategy the collector does not know *)

Lemma unknown_strategy_tests strategy :
  ~ In strategy strategies ->
  String.eqb "pick-first" strategy = false /\
  String.eqb "pick-later" strategy = false /\
  String.eqb "pick-right" strategy = false /\
  String.eqb "pick-right-later" strategy = false /\
  String.eqb "pick-all" strategy = false.
Proof.
  intros Hunknown. split_and!; apply String.eqb_neq; intros <-; apply Hunknown; cbn; tauto.
Qed.

(** C3 fails as stated: with a strategy outside the five and a silent
    network the resolve sends its query and returns the empty list; no
    error is raised. *)
Lemma unsupported_strategy_not_rejected :
  ~ In "pick-best" strategies /\
  fst (resolve_over_udp "twitter.com" "8.8.8.8" 53 1000 "pick-best" ∅ (example_world []))
  = Ok (Flat []) /\
  sent (snd (resolve_over_udp "twitter.com" "8.8.8.8" 53 1000 "pick-best" ∅
               (example_world [])))
  = [({| req_id := 4242; req_name := "twitter.com"; req_type := DNS_A |}, ("8.8.8.8", 53))].
Proof.
  split_and!; [|reflexivity..].
  cbn. intros H. repeat destruct H as [H|H]; try discriminate H. exact H.
Qed.

(** ** The classifier *)

(** C4: the classifier answers false on an empty address list, true on a
    list of more than one address whatever the wrong-answer set holds, and
    on a single address it answers whether that address is outside the
    wrong-answer set. *)
Theorem is_right_response_cases
    (response : DNS) (wrong_answers : gset string) (answers : list string) :
  list_ipv4_addresses response = Ok answers ->
  (answers = [] -> is_right_response response wrong_answers = Ok false) /\
  ((1 < length answers)%nat -> is_right_response response wrong_answers = Ok true) /\
  (forall answer, answers = [answer] ->
     is_right_response response wrong_answers = Ok (bool_decide (answer ∉ wrong_answers))).
Proof.
  intros Hanswers. unfold is_right_response. rewrite Hanswers. cbn [mbind result_bind].
  split_and!.
  - by intros ->.
  - intros Hmany. destruct answers as [|a1 [|a2 answers]]; cbn in Hmany; try lia.
    rewrite bool_decide_eq_false_2 by done.
    unfold len, list_len. cbn [length].
    by holds.
  - intros answer ->. cbn. rewrite orb_false_r.
    destruct (decide (answer ∈ wrong_answers)) as [Hin|Hout].
    + by rewrite (bool_decide_eq_true_2 _ Hin), bool_decide_eq_false_2 by auto.
    + by rewrite (bool_decide_eq_false_2 _ Hout), bool_decide_eq_true_2 by auto.
Qed.

Lemma is_right_response_cases_witness :
  list_ipv4_addresses R23 = Ok ["2.2.2.2"; "3.3.3.3"] /\
  is_right_response R23 {["2.2.2.2"; "3.3.3.3"]} = Ok true.
Proof.
  split; [reflexivity|].
  apply (proj1 (proj2 (is_right_response_cases R23 {["2.2.2.2"; "3.3.3.3"]}
                         ["2.2.2.2"; "3.3.3.3"] eq_refl))).
  cbn. lia.
Defined.

(** ** Endpoint strings *)

Lemma contains_count c s : PyStr.contains c s = negb (Nat.eqb (PyStr.count c s) 0).
Proof. induction s as [|d s IH]; cbn; [done|]. by destruct (Ascii.eqb d c). Qed.

Lemma count_append c p q :
  PyStr.count c (p +:+ q) = (PyStr.count c p + PyStr.count c q)%nat.
Proof.
  induction p as [|d p IH]; [done|].
  change (String d p +:+ q) with (String d (p +:+ q)). cbn [PyStr.count].
  destruct (Ascii.eqb d c); lia.
Qed.

Lemma split_length c s : length (PyStr.split c s) = S (PyStr.count c s).
Proof.
  induction s as [|d s IH]; cbn; [done|].
  destruct (Ascii.eqb d c); cbn; [by rewrite IH|].
  destruct (PyStr.split c s); cbn in *; lia.
Qed.

Lemma split_no_separator c s : PyStr.count c s = 0%nat -> PyStr.split c s = [s].
Proof.
  induction s as [|d s IH]; cbn; [done|].
  destruct (Ascii.eqb d c); [done|]. intros Hcount. by rewrite IH.
Qed.

Lemma split_at_separator c p q :
  PyStr.count c p = 0%nat ->
  PyStr.split c (p +:+ String c q) = p :: PyStr.split c q.
Proof.
  induction p as [|d p IH].
  - change ("" +:+ String c q) with (String c q). cbn [PyStr.split].
    by rewrite Ascii.eqb_refl.
  - change (String d p +:+ String c q) with (String d (p +:+ String c q)).
    cbn [PyStr.split PyStr.count].
    destruct (Ascii.eqb d c); [done|]. intros Hcount. by rewrite IH.
Qed.

(** ** Integers in text *)

Lemma digits_of_uint d acc :
  PyStr.digits acc (DecimalString.NilEmpty.string_of_uint d) = Some (uint_value acc d).
Proof. revert acc. induction d; intros acc; cbn; [done|by rewrite IHd..]. Qed.

Lemma number_of_uint d :
  PyStr.number (DecimalString.NilZero.string_of_uint d) = Some (uint_value 0 d).
Proof.
  destruct d; [done|..];
    cbn [DecimalString.NilZero.string_of_uint DecimalString.NilEmpty.string_of_uint];
    unfold PyStr.number; cbn [PyStr.digits];
    replace (PyStr.isdigit _) with true by reflexivity;
    by rewrite digits_of_uint.
Qed.

(** [int] on a text that begins with a digit, and on one that begins with
    a minus sign. *)
Lemma int_digit c s :
  PyStr.isdigit c = true ->
  PyStr.int (String c s) =
  match PyStr.number (String c s) with
  | Some n => Ok n
  | None => Raise (ValueError "invalid literal for int() with base 10")
  end.
Proof.
  intros Hdigit.
  destruct c as [[] [] [] [] [] [] [] []]; try (vm_compute in Hdigit; discriminate Hdigit);
    reflexivity.
Qed.

Lemma int_minus s :
  PyStr.int (String "-" s) =
  match PyStr.number (PyStr.lstrip s) with
  | Some n => Ok (- n)
  | None => Raise (ValueError "invalid literal for int() with base 10")
  end.
Proof.
  unfold PyStr.int. cbn [PyStr.lstrip].
  replace (PyStr.isspace "-") with false by reflexivity.
  by destruct (PyStr.number (PyStr.lstrip s)).
Qed.

Lemma lstrip_uint d :
  PyStr.lstrip (DecimalString.NilZero.string_of_uint d) =
  DecimalString.NilZero.string_of_uint d.
Proof. by destruct d. Qed.

Lemma int_of_uint d :
  PyStr.int (DecimalString.NilZero.string_of_uint d) = Ok (uint_value 0 d).
Proof.
  pose proof (number_of_uint d) as Hnumber.
  destruct d; [done|..];
    cbn [DecimalString.NilZero.string_of_uint DecimalString.NilEmpty.string_of_uint] in *;
    rewrite int_digit by reflexivity; by rewrite Hnumber.
Qed.

Lemma uint_value_of_uint_acc d acc :
  Z.pos (Pos.of_uint_acc d acc) = uint_value (Z.pos acc) d.
Proof.
  revert acc. induction d; intros acc; cbn [Pos.of_uint_acc uint_value]; [done|..];
    rewrite IHd; f_equal; lia.
Qed.

Lemma uint_value_of_uint d : Z.of_uint d = uint_value 0 d.
Proof.
  unfold Z.of_uint.
  induction d; cbn [Pos.of_uint uint_value]; [done|exact IHd|..];
    cbn [Z.of_N]; by rewrite uint_value_of_uint_acc.
Qed.

Lemma int_plus s :
  PyStr.int (String "+" s) =
  match PyStr.number (PyStr.lstrip s) with
  | Some n => Ok n
  | None => Raise (ValueError "invalid literal for int() with base 10")
  end.
Proof.
  unfold PyStr.int. cbn [PyStr.lstrip].
  by replace (PyStr.isspace "+") with false by reflexivity.
Qed.

(** [int] on a text that begins with neither white space nor a sign. *)
Lemma int_other c s :
  c <> "-"%char -> c <> "+"%char -> PyStr.isspace c = false ->
  PyStr.int (String c s) =
  match PyStr.number (String c s) with
  | Some n => Ok n
  | None => Raise (ValueError "invalid literal for int() with base 10")
  end.
Proof.
  intros Hminus Hplus Hspace.
  destruct c as [[] [] [] [] [] [] [] []];
    try (vm_compute in Hspace; discriminate Hspace); try reflexivity;
    by (exfalso; apply Hminus) || by (exfalso; apply Hplus).
Qed.

Lemma isspace_white c : PyStr.isspace c = existsb (Ascii.eqb c) white_space.
Proof. by destruct c as [[] [] [] [] [] [] [] []]. Qed.

Lemma white_isspace c : In c white_space <-> PyStr.isspace c = true.
Proof.
  rewrite isspace_white, existsb_exists. split.
  - intros Hin. exists c. by rewrite Ascii.eqb_refl.
  - intros (d & Hin & Heq). by apply Ascii.eqb_eq in Heq as ->.
Qed.

Lemma white_not_digit c : PyStr.isspace c = true -> PyStr.isdigit c = false.
Proof. by destruct c as [[] [] [] [] [] [] [] []]. Qed.

Lemma digit_not_white c : PyStr.isdigit c = true -> PyStr.isspace c = false.
Proof. by destruct c as [[] [] [] [] [] [] [] []]. Qed.

Lemma blank_cons c s : blank (String c s) <-> PyStr.isspace c = true /\ blank s.
Proof. unfold blank. cbn [list_ascii_of_string]. by rewrite Forall_cons, white_isspace. Qed.

Lemma lstrip_blank b r : blank b -> PyStr.lstrip (b +:+ r) = PyStr.lstrip r.
Proof.
  induction b as [|c b IH]; [done|]. rewrite blank_cons. intros [Hc Hb].
  change (String c b +:+ r) with (String c (b +:+ r)). cbn [PyStr.lstrip].
  rewrite Hc. by apply IH.
Qed.

Lemma blank_lstrip b : blank b -> PyStr.lstrip b = "".
Proof.
  induction b as [|c b IH]; [done|]. rewrite blank_cons. intros [Hc Hb].
  cbn [PyStr.lstrip]. rewrite Hc. by apply IH.
Qed.

Lemma lstrip_nil_blank s : PyStr.lstrip s = "" -> blank s.
Proof.
  induction s as [|c s IH]; [constructor|]. cbn [PyStr.lstrip].
  destruct (PyStr.isspace c) eqn:Hc; [|done]. intros Hs. apply blank_cons. auto.
Qed.

(** [lstrip] takes white space off the front, and stops at a character
    that is not white space. *)
Lemma lstrip_split s :
  exists b, blank b /\ s = b +:+ PyStr.lstrip s /\
            match PyStr.lstrip s with
            | String c _ => PyStr.isspace c = false
            | EmptyString => True
            end.
Proof.
  induction s as [|c s (b & Hb & Hs & Hhead)].
  - exists "". split_and!; [constructor|done..].
  - cbn [PyStr.lstrip]. destruct (PyStr.isspace c) eqn:Hc.
    + exists (String c b). split_and!; [by apply blank_cons| |done].
      change (String c b +:+ PyStr.lstrip s) with (String c (b +:+ PyStr.lstrip s)).
      by rewrite <- Hs.
    + exists "". split_and!; [constructor|done..].
Qed.

Lemma int_blank b s : blank b -> PyStr.int (b +:+ s) = PyStr.int s.
Proof. intros Hb. unfold PyStr.int. by rewrite lstrip_blank. Qed.

Lemma digits_blank acc after : blank after -> PyStr.digits acc after = Some acc.
Proof.
  destruct after as [|c after]; [done|]. rewrite blank_cons. intros [Hc Hafter].
  cbn [PyStr.digits]. by rewrite (white_not_digit _ Hc), Hc, blank_lstrip.
Qed.

Lemma digits_uint_blank u after :
  blank after ->
  forall acc,
    PyStr.digits acc (DecimalString.NilEmpty.string_of_uint u +:+ after) =
    Some (uint_value acc u).
Proof.
  intros Hafter. induction u as [|u IH|u IH|u IH|u IH|u IH|u IH|u IH|u IH|u IH|u IH];
    intros acc; [by apply digits_blank|..];
    cbn [DecimalString.NilEmpty.string_of_uint uint_value];
    match goal with
    | |- context [String ?c ?s +:+ ?r] => change (String c s +:+ r) with (String c (s +:+ r))
    end;
    cbn [PyStr.digits]; replace (PyStr.isdigit _) with true by reflexivity;
    by rewrite IH.
Qed.

(** A text the library reads as digits begins with a digit, and [number]
    reads it with the library's value, white space behind it or not. *)
Lemma number_uint_blank ds u after :
  DecimalString.NilZero.uint_of_string ds = Some u ->
  blank after ->
  PyStr.number (ds +:+ after) = Some (Z.of_uint u) /\
  exists c rest, ds +:+ after = String c rest /\ PyStr.isdigit c = true.
Proof.
  intros Hu Hafter. destruct ds as [|d ds]; [done|].
  cbn [DecimalString.NilZero.uint_of_string] in Hu.
  apply DecimalString.NilEmpty.sus in Hu. rewrite <- Hu.
  pose proof (digits_uint_blank u after Hafter 0) as Hdigits.
  rewrite uint_value_of_uint.
  destruct u; [discriminate Hu|..];
    cbn [DecimalString.NilEmpty.string_of_uint] in *;
    match goal with
    | |- context [String ?c ?s +:+ ?r] =>
        change (String c s +:+ r) with (String c (s +:+ r)) in *
    end;
    (split; [|eexists _, _; split; reflexivity]);
    unfold PyStr.number;
    by replace (PyStr.isdigit _) with true by reflexivity.
Qed.

(** The texts of the description are the ones [int] reads, with the value
    it gives them. *)
Lemma int_complete s n : decimal_integer s n -> PyStr.int s = Ok n.
Proof.
  intros (before & sign & gap & ds & after & u & -> & Hbefore & Hgap & Hafter & Hu & Hsign).
  rewrite int_blank by done.
  destruct (number_uint_blank ds u after Hu Hafter) as (Hnumber & c & rest & Hhead & Hc).
  assert (PyStr.lstrip (gap +:+ ds +:+ after) = ds +:+ after) as Hstrip.
  { rewrite lstrip_blank by done. rewrite Hhead. cbn [PyStr.lstrip].
    by rewrite (digit_not_white _ Hc). }
  destruct Hsign as [[-> ->]|[[-> ->]|[-> ->]]].
  - change ("" +:+ gap +:+ ds +:+ after) with (gap +:+ ds +:+ after).
    rewrite int_blank by done. rewrite Hhead, int_digit by done.
    by rewrite <- Hhead, Hnumber.
  - change ("+" +:+ gap +:+ ds +:+ after) with (String "+" (gap +:+ ds +:+ after)).
    by rewrite int_plus, Hstrip, Hnumber.
  - change ("-" +:+ gap +:+ ds +:+ after) with (String "-" (gap +:+ ds +:+ after)).
    by rewrite int_minus, Hstrip, Hnumber.
Qed.

Lemma isdigit_step c :
  PyStr.isdigit c = true ->
  exists (f : Decimal.uint -> Decimal.uint) (k : Z),
    Z.of_N (N_of_ascii c) - 48 = k /\
    (forall u, DecimalString.uint_of_char c (Some u) = Some (f u)) /\
    (forall acc u, uint_value acc (f u) = uint_value (10 * acc + k) u).
Proof.
  intros Hdigit.
  destruct c as [[] [] [] [] [] [] [] []]; try (vm_compute in Hdigit; discriminate Hdigit);
    first [ by exists Decimal.D0, 0 | by exists Decimal.D1, 1 | by exists Decimal.D2, 2
          | by exists Decimal.D3, 3 | by exists Decimal.D4, 4 | by exists Decimal.D5, 5
          | by exists Decimal.D6, 6 | by exists Decimal.D7, 7 | by exists Decimal.D8, 8
          | by exists Decimal.D9, 9 ].
Qed.

Lemma digits_sound s :
  forall acc n,
    PyStr.digits acc s = Some n ->
    exists ds after u,
      s = ds +:+ after /\
      DecimalString.NilEmpty.uint_of_string ds = Some u /\
      blank after /\ n = uint_value acc u.
Proof.
  induction s as [|c s IH]; intros acc n.
  - intros [= <-]. exists "", "", Decimal.Nil. split_and!; [done..|constructor|done].
  - cbn [PyStr.digits]. destruct (PyStr.isdigit c) eqn:Hd.
    + intros Hn. destruct (isdigit_step c Hd) as (f & k & Hk & Hf & Hv).
      rewrite Hk in Hn.
      destruct (IH _ _ Hn) as (ds & after & u & -> & Hu & Hafter & ->).
      exists (String c ds), after, (f u). split_and!; [done| |done|by rewrite Hv].
      cbn [DecimalString.NilEmpty.uint_of_string]. by rewrite Hu, Hf.
    + destruct (PyStr.isspace c) eqn:Hsp; [|done].
      destruct (PyStr.lstrip s) eqn:Hl; [|done]. intros [= <-].
      exists "", (String c s), Decimal.Nil. split_and!; [done..| |done].
      apply blank_cons. split; [done|by apply lstrip_nil_blank].
Qed.

Lemma number_sound s n :
  PyStr.number s = Some n ->
  exists ds after u,
    s = ds +:+ after /\
    DecimalString.NilZero.uint_of_string ds = Some u /\
    blank after /\ n = Z.of_uint u.
Proof.
  unfold PyStr.number. destruct s as [|c s]; [done|].
  destruct (PyStr.isdigit c) eqn:Hd; [|done]. intros Hn.
  destruct (digits_sound _ _ _ Hn) as (ds & after & u & Hs & Hu & Hafter & ->).
  exists ds, after, u. split_and!; [done| |done|by rewrite uint_value_of_uint].
  destruct ds as [|d ds]; [|done].
  change ("" +:+ after) with after in Hs. rewrite <- Hs in Hafter.
  apply blank_cons in Hafter as [Hc _].
  by rewrite (white_not_digit _ Hc) in Hd.
Qed.

Lemma int_sound s n : PyStr.int s = Ok n -> decimal_integer s n.
Proof.
  destruct (lstrip_split s) as (before & Hbefore & Hs & Hhead).
  destruct (PyStr.lstrip s) as [|c body] eqn:Hbody.
  { unfold PyStr.int. by rewrite Hbody. }
  rewrite Hs, int_blank by done.
  destruct (Ascii.eqb_spec c "-") as [->|Hminus];
    [|destruct (Ascii.eqb_spec c "+") as [->|Hplus]].
  - rewrite int_minus. destruct (PyStr.number (PyStr.lstrip body)) as [m|] eqn:Hm; [|done].
    intros [= <-].
    destruct (lstrip_split body) as (gap & Hgap & Hb & _).
    destruct (number_sound _ _ Hm) as (ds & after & u & Hds & Hu & Hafter & ->).
    exists before, "-", gap, ds, after, u. split_and!; try done; [|by right; right].
    rewrite Hds in Hb. by rewrite Hb.
  - rewrite int_plus. destruct (PyStr.number (PyStr.lstrip body)) as [m|] eqn:Hm; [|done].
    intros [= <-].
    destruct (lstrip_split body) as (gap & Hgap & Hb & _).
    destruct (number_sound _ _ Hm) as (ds & after & u & Hds & Hu & Hafter & ->).
    exists before, "+", gap, ds, after, u. split_and!; try done; [|by right; left].
    rewrite Hds in Hb. by rewrite Hb.
  - rewrite int_other by done.
    destruct (PyStr.number (String c body)) as [m|] eqn:Hm; [|done]. intros [= <-].
    destruct (number_sound _ _ Hm) as (ds & after & u & Hds & Hu & Hafter & ->).
    exists before, "", "", ds, after, u. split_and!; try done; [|constructor|by left].
    by rewrite Hds.
Qed.

(** [int] returns an integer or raises ValueError. *)
Lemma int_result s :
  (exists n, PyStr.int s = Ok n) \/ exists msg, PyStr.int s = Raise (ValueError msg).
Proof.
  unfold PyStr.int.
  destruct (match PyStr.lstrip s with
            | String "-" rest => Z.opp <$> PyStr.number (PyStr.lstrip rest)
            | String "+" rest => PyStr.number (PyStr.lstrip rest)
            | _ => PyStr.number (PyStr.lstrip s)
            end) as [n|]; [left|right]; by eexists.
Qed.

Lemma count_colon_uint d :
  PyStr.count ":" (DecimalString.NilEmpty.string_of_uint d) = 0%nat.
Proof. induction d; cbn; done. Qed.

(** [int] reads back what [str] writes. *)
Lemma int_of_str n : PyStr.int (str_of_int n) = Ok n.
Proof.
  unfold str_of_int. rewrite <- (DecimalZ.of_to n) at 2.
  destruct (Z.to_int n) as [d|d]; cbn [DecimalString.NilZero.string_of_int Z.of_int].
  - by rewrite int_of_uint, uint_value_of_uint.
  - by rewrite int_minus, lstrip_uint, number_of_uint, uint_value_of_uint.
Qed.

Lemma count_colon_str n : PyStr.count ":" (str_of_int n) = 0%nat.
Proof.
  unfold str_of_int.
  destruct (Z.to_int n) as [d|d]; cbn [DecimalString.NilZero.string_of_int];
    destruct d; cbn [DecimalString.NilZero.string_of_uint
                       DecimalString.NilEmpty.string_of_uint PyStr.count];
    try (replace (Ascii.eqb _ ":") with false by reflexivity);
    by rewrite ?count_colon_uint.
Qed.

(** C10: without a colon the string is the address and the port is 53;
    with one colon the result is the text before it and, when the text
    after it is a decimal integer, the value of that integer; when the
    text after it is no decimal integer the result is an error; with two
    colons or more the result is an error. *)
Theorem parse_at_cases :
  (forall at_, PyStr.count ":" at_ = 0%nat -> parse_at at_ = Ok (at_, 53)) /\
  (forall prefix suffix port,
     PyStr.count ":" prefix = 0%nat -> PyStr.count ":" suffix = 0%nat ->
     decimal_integer suffix port ->
     parse_at (prefix +:+ ":" +:+ suffix) = Ok (prefix, port)) /\
  (forall prefix suffix,
     PyStr.count ":" prefix = 0%nat -> PyStr.count ":" suffix = 0%nat ->
     (forall port, ~ decimal_integer suffix port) ->
     exists msg, parse_at (prefix +:+ ":" +:+ suffix) = Raise (ValueError msg)) /\
  (forall at_, (2 <= PyStr.count ":" at_)%nat ->
     parse_at at_ = Raise (ValueError "too many values to unpack")).
Proof.
  assert (forall prefix suffix,
            PyStr.count ":" prefix = 0%nat -> PyStr.count ":" suffix = 0%nat ->
            parse_at (prefix +:+ ":" +:+ suffix) =
            (PyStr.int suffix ≫= fun port => Ok (prefix, port))) as Hone.
  { intros prefix suffix Hprefix Hsuffix. unfold parse_at.
    change (":" +:+ suffix) with (String ":" suffix).
    rewrite contains_count, count_append, Hprefix. cbn [PyStr.count].
    rewrite Ascii.eqb_refl, Hsuffix. cbn [Nat.add Nat.eqb negb].
    by rewrite split_at_separator, split_no_separator. }
  split_and!.
  - intros at_ Hcount. unfold parse_at. by rewrite contains_count, Hcount.
  - intros prefix suffix port Hprefix Hsuffix Hinteger.
    by rewrite Hone, (int_complete _ _ Hinteger).
  - intros prefix suffix Hprefix Hsuffix Hnone. rewrite Hone by done.
    destruct (int_result suffix) as [[port Hport]|[msg Hmsg]].
    + destruct (Hnone port). by apply int_sound.
    + exists msg. by rewrite Hmsg.
  - intros at_ Hcount. unfold parse_at. rewrite contains_count.
    pose proof (split_length ":" at_) as Hlength.
    destruct (PyStr.count ":" at_) as [|[|n]]; [lia..|]. cbn [Nat.eqb negb].
    by destruct (PyStr.split ":" at_) as [|p1 [|p2 [|p3 pieces]]].
Qed.

Lemma parse_at_cases_witness :
  parse_at "8.8.8.8" = Ok ("8.8.8.8", 53) /\
  parse_at "8.8.8.8:5353" = Ok ("8.8.8.8", 5353) /\
  parse_at "localhost: - 53 " = Ok ("localhost", -53) /\
  (exists msg, parse_at "8.8.8.8:dns" = Raise (ValueError msg)) /\
  parse_at "::1" = Raise (ValueError "too many values to unpack").
Proof.
  destruct parse_at_cases as (Hnone & Hport & Hbad & Hmany). split_and!.
  - apply Hnone. reflexivity.
  - apply (Hport "8.8.8.8" "5353"); [reflexivity..|].
    exists "", "", "", "5353", "",
      (Decimal.D5 (Decimal.D3 (Decimal.D5 (Decimal.D3 Decimal.Nil)))).
    split_and!; [reflexivity|constructor..|reflexivity|by left].
  - apply (Hport "localhost" " - 53 "); [reflexivity..|].
    exists " ", "-", " ", "53", " ", (Decimal.D5 (Decimal.D3 Decimal.Nil)).
    split_and!; [reflexivity| | | |reflexivity|by right; right];
      (constructor; [cbn; tauto|constructor]).
  - apply (Hbad "8.8.8.8" "dns"); [reflexivity..|].
    intros port Hinteger. apply int_complete in Hinteger. discriminate Hinteger.
  - apply Hmany. cbn. lia.
Defined.

(** ** Address strings *)

Lemma length_append (s1 s2 : string) :
  String.length (s1 +:+ s2) = (String.length s1 + String.length s2)%nat.
Proof.
  induction s1 as [|c s1 IH]; [done|].
  change (String c s1 +:+ s2) with (String c (s1 +:+ s2)).
  cbn [String.length]. by rewrite IH.
Qed.

Lemma octet_length b : (1 <= String.length (octet b))%nat.
Proof. destruct b; vm_compute; lia. Qed.

Lemma inet_ntoa_length packed s :
  inet_ntoa packed = Ok s -> (7 <= String.length s)%nat.
Proof.
  destruct packed as [|a [|b [|c [|d [|]]]]]; try discriminate.
  intros [= <-]. rewrite !length_append. cbn [String.length].
  pose proof (octet_length a). pose proof (octet_length b).
  pose proof (octet_length c). pose proof (octet_length d). lia.
Qed.

Lemma mapM_inet_ntoa_lengths (records : list RR) addresses :
  mapM (fun answer => inet_ntoa (rdata answer)) records = Ok addresses ->
  Forall (fun s => (7 <= String.length s)%nat) addresses.
Proof.
  revert addresses. induction records as [|record records IH]; intros addresses.
  - intros [= <-]. constructor.
  - cbn. destruct (inet_ntoa (rdata record)) as [s|] eqn:Hs; [|done]. cbn.
    destruct (mapM _ records) as [rest|]; [|done]. cbn. intros [= <-].
    constructor; [by eapply inet_ntoa_length|by apply IH].
Qed.

Lemma list_ipv4_addresses_lengths response addresses :
  list_ipv4_addresses response = Ok addresses ->
  Forall (fun s => (7 <= String.length s)%nat) addresses.
Proof. apply mapM_inet_ntoa_lengths. Qed.

(** ** Discovery for one domain *)

(** Over a flat list the loop of [discover_once] adds nothing: no address
    is one character long. *)
Lemma discover_fold_flat addresses (found : gset string) :
  Forall (fun s => (7 <= String.length s)%nat) addresses ->
  fold_left (fun wrong_answers answers =>
               if len answers =? 1 then wrong_answers ∪ set_of answers else wrong_answers)
            (Address <$> addresses) found = found.
Proof.
  intros Hlengths. revert found.
  induction Hlengths as [|s addresses Hs _ IH]; intros found; [done|].
  cbn [fmap list_fmap fold_left]. unfold len at 1, item_len, len, str_len.
  not_one. apply IH.
Qed.

(** Over a list of lists it adds the single address of every one-address
    list. *)
Lemma discover_fold_nested lists (found : gset string) :
  fold_left (fun wrong_answers answers =>
               if len answers =? 1 then wrong_answers ∪ set_of answers else wrong_answers)
            (Addresses <$> lists) found =
  found ∪ ⋃ (map (fun addresses =>
                    match addresses with
                    | [address] => {[address]}
                    | _ => ∅
                    end) lists).
Proof.
  revert found. induction lists as [|addresses lists IH]; intros found.
  - cbn. set_solver.
  - cbn [fmap list_fmap fold_left map]. rewrite IH, union_list_cons.
    unfold len at 1, item_len, len, list_len.
    destruct addresses as [|a1 [|a2 addresses]]; cbn [length].
    + cbn. set_solver.
    + cbn. set_solver.
    + not_one. set_solver.
Qed.

Lemma discover_exists_nested lists :
  existsb (fun answers => 1 <? len answers) (Addresses <$> lists) =
  existsb (fun addresses => (1 <? length addresses)%nat) lists.
Proof.
  induction lists as [|addresses lists IH]; [done|].
  cbn [fmap list_fmap existsb]. rewrite IH. f_equal.
  unfold len, item_len, len, list_len.
  destruct (Nat.ltb_spec 1 (length addresses)); [apply Z.ltb_lt|apply Z.ltb_ge]; lia.
Qed.

Lemma pick_all_collected domain server_ip server_port timeout wrong_answers w responses :
  delivers 0 timeout responses (next_session w) ->
  pick_responses (arrivals w) timeout "pick-all" wrong_answers
                 (query_sent domain server_ip server_port w) =
  (Ok (Listed (snd <$> responses)),
   waited timeout (query_sent domain server_ip server_port w)).
Proof.
  intros Hdelivers. apply (delivers_delayed (clock w)) in Hdelivers.
  rewrite (pick_responses_pick_all (arrivals w) timeout wrong_answers _
             (query_sent domain server_ip server_port w) Hdelivers).
  by rewrite delayed_responses.
Qed.

Lemma contribution_one addresses : contribution [addresses] = ∅.
Proof.
  unfold contribution. cbn [existsb map].
  destruct addresses as [|a1 [|a2 addresses]]; cbn; set_solver.
Qed.

Lemma discover_once_contribution domain server_ip server_port timeout w lists :
  observes timeout (next_session w) lists ->
  discover_once domain server_ip server_port timeout w =
  (Ok (contribution lists), waited timeout (query_sent domain server_ip server_port w)).
Proof.
  intros (responses & Hdelivers & Hlists).
  pose proof (pick_all_collected domain server_ip server_port timeout ∅ w _ Hdelivers)
    as Hpicked.
  unfold discover_once, mbind, M_bind.
  rewrite (resolve_over_udp_listed _ _ _ _ _ _ _ _ _ Hpicked).
  destruct (snd <$> responses) as [|r1 [|r2 rest]].
  - injection Hlists as <-. reflexivity.
  - cbn in Hlists. destruct (list_ipv4_addresses r1) as [addresses|] eqn:Hr1; [|done].
    injection Hlists as <-. cbn [fmap result_fmap mret M_ret items].
    rewrite discover_fold_flat by (by eapply list_ipv4_addresses_lengths).
    rewrite contribution_one. by destruct (existsb _ _).
  - rewrite Hlists. cbn [fmap result_fmap mret M_ret items].
    rewrite discover_exists_nested, discover_fold_nested. unfold contribution.
    destruct (existsb _ lists); [|done]. by rewrite union_empty_l_L.
Qed.

Lemma waited_network timeout w : network (waited timeout w) = network w.
Proof. unfold waited. by destruct (0 <? timeout). Qed.

Lemma discover_loop_union server_ip server_port timeout sessions listss :
  Forall2 (observes timeout) sessions listss ->
  forall domains found w rest,
  length domains = length sessions ->
  network w = sessions ++ rest ->
  fst (discover_loop domains server_ip server_port timeout found w) =
  Ok (found ∪ ⋃ (contribution <$> listss)).
Proof.
  induction 1 as [|session lists sessions listss Hobserves _ IH];
    intros [|domain domains] found w rest Hlength Hnetwork; try discriminate Hlength.
  - cbn. f_equal. set_solver.
  - cbn [discover_loop]. unfold mbind, M_bind.
    rewrite (discover_once_contribution domain server_ip server_port timeout w lists)
      by (unfold next_session; by rewrite Hnetwork).
    rewrite (IH domains _ _ rest).
    + cbn [fmap list_fmap]. rewrite union_list_cons. f_equal. set_solver.
    + cbn in Hlength. lia.
    + rewrite waited_network. cbn. by rewrite Hnetwork.
Qed.

(** C5: for one domain, discovery returns the contribution of the address
    lists collected for it: when one of them has more than one address, the
    single address of every list that has exactly one, and nothing
    otherwise.  For a list of domains it returns the union of the
    contributions of the domains. *)
Theorem discover_unions_contributions
    (server_ip : string) (server_port timeout : Z) (w : World) :
  (forall domain lists,
     observes timeout (next_session w) lists ->
     fst (discover_once domain server_ip server_port timeout w) = Ok (contribution lists)) /\
  (forall domains at_ sessions listss rest,
     parse_at at_ = Ok (server_ip, server_port) ->
     network w = sessions ++ rest ->
     length domains = length sessions ->
     Forall2 (observes timeout) sessions listss ->
     fst (discover domains at_ timeout w) = Ok (⋃ (contribution <$> listss))).
Proof.
  split.
  - intros domain lists Hobserves. by rewrite (discover_once_contribution _ _ _ _ _ lists).
  - intros domains at_ sessions listss rest Hat Hnetwork Hlength Hobserves.
    unfold discover, mbind, M_bind, lift. rewrite Hat.
    rewrite (discover_loop_union _ _ _ _ _ Hobserves _ _ _ rest Hlength Hnetwork).
    f_equal. set_solver.
Qed.


Lemma discover_unions_contributions_witness :
  fst (discover ["twitter.com"; "youtube.com"] "8.8.8.8" 1000 discovery_world)
  = Ok {["9.9.9.9"]}.
Proof.
  etrans;
    [apply (proj2 (discover_unions_contributions "8.8.8.8" 53 1000 discovery_world)
              ["twitter.com"; "youtube.com"] "8.8.8.8" (network discovery_world)
              [[["9.9.9.9"]; ["9.9.9.9"; "8.8.8.8"]]; [["1.1.1.1"]; ["2.2.2.2"]]] [])|].
  - reflexivity.
  - reflexivity.
  - reflexivity.
  - constructor; [|constructor; [|constructor]].
    + exists [(10, R9); (40, R98)]. split; [|reflexivity].
      exists []. split_and!; [reflexivity| |exact I]. repeat constructor; cbn; lia.
    + exists [(10, R1); (40, R2)]. split; [|reflexivity].
      exists []. split_and!; [reflexivity| |exact I]. repeat constructor; cbn; lia.
  - apply (f_equal Ok). unfold contribution.
    cbn [fmap list_fmap existsb length Nat.ltb Nat.leb orb map].
    rewrite !union_list_cons, union_list_nil. set_solver.
Defined.

(** ** Discovery keeps nothing from one call to the next *)

Lemma delayed_delayed {E} k now (events : list (Z * E)) :
  delayed k (delayed now events) = delayed (now + k) events.
Proof.
  unfold delayed. rewrite map_map. apply map_ext. intros [delay e]. f_equal. lia.
Qed.

Lemma dispatch_shift k strategy wrong_answers response picked now w1 w2
    (continue1 continue2 : list DNS -> result Picked * World) :
  (forall held, exists r t,
     continue1 held = (r, set_clock t w1) /\ continue2 held = (r, set_clock (t + k) w2)) ->
  exists r t,
    dispatch strategy wrong_answers response picked (set_clock now w1) continue1
    = (r, set_clock t w1) /\
    dispatch strategy wrong_answers response picked (set_clock (now + k) w2) continue2
    = (r, set_clock (t + k) w2).
Proof.
  intros Hcontinue. unfold dispatch.
  by_strategy strategy; try (by eexists _, now); try apply Hcontinue.
  - destruct (is_right_response response wrong_answers) as [[]|];
      [by eexists _, now|apply Hcontinue|by eexists _, now].
  - destruct (is_right_response response wrong_answers) as [[]|];
      [apply Hcontinue|apply Hcontinue|by eexists _, now].
Qed.

(** Moving the clock, the start and the arrivals by the same amount does
    not change what the loop returns, and the loop touches the clock only. *)
Lemma pick_loop_shift k started_at timeout strategy wrong_answers sock :
  forall picked remaining w1 w2,
  clock w2 = clock w1 + k ->
  exists r t,
    pick_loop started_at timeout strategy wrong_answers sock picked remaining w1
    = (r, set_clock t w1) /\
    pick_loop (started_at + k) timeout strategy wrong_answers (delayed k sock)
              picked remaining w2
    = (r, set_clock (t + k) w2).
Proof.
  induction sock as [|[arrival event] sock IH]; intros picked remaining w1 w2 Hclock.
  - cbn [delayed map]. rewrite !pick_loop_silent by done.
    destruct (0 <? remaining).
    + exists (Ok (Listed picked)), (clock w1 + remaining). split; [done|].
      do 2 f_equal. lia.
    + exists (Ok (Listed picked)), (clock w1). rewrite set_clock_same. split; [done|].
      by rewrite <- Hclock, set_clock_same.
  - cbn [delayed map]. rewrite !pick_loop_cons. fold (delayed k sock).
    destruct (0 <? remaining).
    2:{ exists (Ok (Listed picked)), (clock w1). rewrite set_clock_same. split; [done|].
        by rewrite <- Hclock, set_clock_same. }
    replace (k + arrival <? clock w2 + remaining) with (arrival <? clock w1 + remaining)
      by (rewrite Hclock; destruct (Z.ltb_spec arrival (clock w1 + remaining));
          symmetry; [apply Z.ltb_lt|apply Z.ltb_ge]; lia).
    replace (Z.max (clock w2) (k + arrival)) with (Z.max (clock w1) arrival + k) by lia.
    destruct (arrival <? clock w1 + remaining).
    2:{ exists (Ok (Listed picked)), (clock w1 + remaining). split; [done|].
        do 2 f_equal. lia. }
    cbv zeta. set (now := Z.max (clock w1) arrival).
    destruct event as [response| |]; [|by eexists _, now..].
    apply dispatch_shift. intros held. cbn [clock set_clock].
    replace (started_at + k + timeout - (now + k)) with (started_at + timeout - now) by lia.
    destruct (IH held (started_at + timeout - now) (set_clock now w1)
                (set_clock (now + k) w2) eq_refl) as (r & t & Hrun1 & Hrun2).
    by exists r, t.
Qed.

(** The result of a resolve and the network it leaves depend on the
    network alone, not on the clock, the process or the log of what was
    sent. *)
Lemma resolve_over_udp_network_only domain server_ip server_port timeout strategy
    wrong_answers w1 w2 :
  network w1 = network w2 ->
  fst (resolve_over_udp domain server_ip server_port timeout strategy wrong_answers w1) =
  fst (resolve_over_udp domain server_ip server_port timeout strategy wrong_answers w2) /\
  network (snd (resolve_over_udp domain server_ip server_port timeout strategy
                  wrong_answers w1)) =
  network (snd (resolve_over_udp domain server_ip server_port timeout strategy
                  wrong_answers w2)).
Proof.
  intros Hnetwork. rewrite !resolve_over_udp_unfold, !pick_responses_unfold.
  set (k := clock w2 - clock w1).
  assert (arrivals w2 = delayed k (arrivals w1)) as ->.
  { unfold arrivals, next_session. rewrite delayed_delayed, Hnetwork. f_equal. lia. }
  cbn [clock query_sent].
  replace (clock w1 + timeout - clock w1) with timeout by lia.
  replace (clock w2 + timeout - clock w2) with timeout by lia.
  replace (clock w2) with (clock w1 + k) by lia.
  destruct (pick_loop_shift k (clock w1) timeout strategy wrong_answers (arrivals w1) []
              timeout (query_sent domain server_ip server_port w1)
              (query_sent domain server_ip server_port w2))
    as (r & t & -> & ->); [cbn; lia|].
  destruct r as [responses|e]; cbn; by rewrite Hnetwork.
Qed.

Lemma discover_once_network_only domain server_ip server_port timeout w1 w2 :
  network w1 = network w2 ->
  fst (discover_once domain server_ip server_port timeout w1) =
  fst (discover_once domain server_ip server_port timeout w2) /\
  network (snd (discover_once domain server_ip server_port timeout w1)) =
  network (snd (discover_once domain server_ip server_port timeout w2)).
Proof.
  intros Hnetwork. unfold discover_once, mbind, M_bind.
  destruct (resolve_over_udp_network_only domain server_ip server_port timeout "pick-all"
              ∅ w1 w2 Hnetwork) as [Hresult Hleft].
  destruct (resolve_over_udp _ _ _ _ _ _ w1) as [[answers1|e1] w1'],
           (resolve_over_udp _ _ _ _ _ _ w2) as [[answers2|e2] w2'];
    cbn in *; try discriminate Hresult; by simplify_eq.
Qed.

Lemma discover_loop_network_only server_ip server_port timeout domains :
  forall found w1 w2,
  network w1 = network w2 ->
  fst (discover_loop domains server_ip server_port timeout found w1) =
  fst (discover_loop domains server_ip server_port timeout found w2).
Proof.
  induction domains as [|domain domains IH]; intros found w1 w2 Hnetwork; [done|].
  cbn [discover_loop]. unfold mbind, M_bind.
  destruct (discover_once_network_only domain server_ip server_port timeout w1 w2 Hnetwork)
    as [Hresult Hleft].
  destruct (discover_once _ _ _ _ w1) as [[found1|e1] w1'],
           (discover_once _ _ _ _ w2) as [[found2|e2] w2'];
    cbn in *; try discriminate Hresult; simplify_eq; [by apply IH|done].
Qed.

(** C9: the set discover returns is determined by the domains, the
    endpoint, the time-out and what the network answers; the clock, the
    process and everything earlier calls left behind have no part in it. *)
Theorem discover_keeps_no_state
    (domains : list string) (at_ : string) (timeout : Z) (w1 w2 : World) :
  network w1 = network w2 ->
  fst (discover domains at_ timeout w1) = fst (discover domains at_ timeout w2).
Proof.
  intros Hnetwork. unfold discover, mbind, M_bind, lift.
  destruct (parse_at at_) as [[server_ip server_port]|e]; [|done].
  by apply discover_loop_network_only.
Qed.

Lemma discover_keeps_no_state_witness :
  network discovery_world = network second_call_world /\
  fst (discover ["twitter.com"; "youtube.com"] "8.8.8.8" 1000 discovery_world) =
  fst (discover ["twitter.com"; "youtube.com"] "8.8.8.8" 1000 second_call_world).
Proof.
  split; [reflexivity|].
  apply discover_keeps_no_state. reflexivity.
Defined.

(** * Further properties *)

(** ** What a run of the collector leaves behind *)

(** To show a property of one turn, show it of each thing the turn can do. *)
Lemma dispatch_rule (P : result Picked * World -> Prop) strategy wrong_answers response
    picked w continue :
  P (Ok (Bare response), w) ->
  (forall e, P (Raise e, w)) ->
  P (continue [response]) ->
  P (continue picked) ->
  (strategy = "pick-all" -> P (continue (picked ++ [response]))) ->
  P (dispatch strategy wrong_answers response picked w continue).
Proof.
  intros Hbare Hraise Hreplace Hkeep Happend. unfold dispatch.
  destruct (String.eqb "pick-first" strategy); [done|].
  destruct (String.eqb "pick-later" strategy); [done|].
  destruct (String.eqb "pick-right" strategy).
  { by destruct (is_right_response response wrong_answers) as [[]|]. }
  destruct (String.eqb "pick-right-later" strategy).
  { by destruct (is_right_response response wrong_answers) as [[]|]. }
  destruct (String.eqb "pick-all" strategy) eqn:Hall; [|done].
  apply Happend. symmetry. by apply String.eqb_eq.
Qed.

Lemma pick_loop_expired started_at timeout strategy wrong_answers sock picked remaining w :
  remaining <= 0 ->
  pick_loop started_at timeout strategy wrong_answers sock picked remaining w =
  (Ok (Listed picked), w).
Proof.
  intros Hexpired. destruct sock as [|[arrival event] sock]; cbn -[String.eqb];
    by replace (0 <? remaining) with false by (symmetry; apply Z.ltb_ge; lia).
Qed.

(** The loop changes nothing but the clock, which it never turns back and
    never moves past the deadline. *)
Lemma pick_loop_footprint started_at timeout strategy wrong_answers sock :
  forall picked w,
  exists r t,
    pick_loop started_at timeout strategy wrong_answers sock picked
              (started_at + timeout - clock w) w = (r, set_clock t w) /\
    clock w <= t <= Z.max (clock w) (started_at + timeout).
Proof.
  induction sock as [|[arrival event] sock IH]; intros picked w.
  - rewrite pick_loop_silent by done.
    destruct (Z.ltb_spec 0 (started_at + timeout - clock w)).
    + eexists _, _. split; [reflexivity|]. lia.
    + exists (Ok (Listed picked)), (clock w). rewrite set_clock_same. split; [done|]. lia.
  - rewrite pick_loop_cons.
    destruct (Z.ltb_spec 0 (started_at + timeout - clock w)).
    2:{ exists (Ok (Listed picked)), (clock w). rewrite set_clock_same. split; [done|]. lia. }
    destruct (Z.ltb_spec arrival (clock w + (started_at + timeout - clock w))).
    2:{ eexists _, _. split; [reflexivity|]. lia. }
    cbv zeta. set (now := Z.max (clock w) arrival).
    assert (clock w <= now <= Z.max (clock w) (started_at + timeout)) by lia.
    assert (forall held, exists r t,
              pick_loop started_at timeout strategy wrong_answers sock held
                        (started_at + timeout - clock (set_clock now w)) (set_clock now w)
              = (r, set_clock t w) /\
              clock w <= t <= Z.max (clock w) (started_at + timeout)) as Hcontinue.
    { intros held. destruct (IH held (set_clock now w)) as (r & t & Hrun & Hbound).
      exists r, t. split; [exact Hrun|]. cbn in Hbound. lia. }
    destruct event as [response| |]; [|by eexists _, now..].
    apply dispatch_rule; intros; first [by eexists _, now|apply Hcontinue].
Qed.

Lemma resolve_over_udp_footprint domain server_ip server_port timeout strategy
    wrong_answers w :
  exists t,
    snd (resolve_over_udp domain server_ip server_port timeout strategy wrong_answers w)
    = set_clock t (query_sent domain server_ip server_port w) /\
    clock w <= t <= clock w + Z.max 0 timeout.
Proof.
  rewrite resolve_over_udp_unfold, pick_responses_unfold.
  destruct (pick_loop_footprint (clock (query_sent domain server_ip server_port w)) timeout
              strategy wrong_answers (arrivals w) []
              (query_sent domain server_ip server_port w)) as (r & t & -> & Hbound).
  exists t. split; [by destruct r|]. cbn in Hbound. lia.
Qed.

(** ** A strategy the collector does not know, once more *)

(** What the collector can come to with a strategy it does not know: the
    empty list, or an error; and the error is "unsupported strategy" only
    when a first message was received before the deadline. *)
Lemma unknown_strategy_outcome strategy timeout wrong_answers sock w :
  ~ In strategy strategies ->
  match fst (pick_responses sock timeout strategy wrong_answers w) with
  | Ok picked => picked = Listed []
  | Raise e =>
      e = Exception ("unsupported strategy: " +:+ strategy) ->
      0 < timeout /\
      exists arrival response rest,
        sock = (arrival, Datagram response) :: rest /\ arrival < clock w + timeout
  end.
Proof.
  intros Hunknown.
  destruct (unknown_strategy_tests _ Hunknown) as (H1 & H2 & H3 & H4 & H5).
  rewrite pick_responses_unfold.
  destruct sock as [|[arrival event] rest]; [by rewrite pick_loop_silent|].
  rewrite pick_loop_cons.
  destruct (Z.ltb_spec 0 (clock w + timeout - clock w)); [|done].
  destruct (Z.ltb_spec arrival (clock w + (clock w + timeout - clock w))); [|done].
  cbv zeta. destruct event as [response| |]; [|by intros [=]..].
  unfold dispatch. rewrite H1, H2, H3, H4, H5. cbn [fst]. intros _.
  split; [lia|]. exists arrival, response, rest. split; [done|lia].
Qed.

(** C3, amended: with a strategy outside the five, the collector raises
    "unsupported strategy" when a first message is received before the
    deadline, and returns the empty list, raising nothing, when nothing
    becomes visible before the deadline; a resolve raises "unsupported
    strategy" only when it has sent its query and the network has
    answered it before the deadline. *)
Theorem unsupported_strategy_raises_on_receipt
    (strategy : string) (timeout : Z) (wrong_answers : gset string)
    (sock : Socket) (w : World) :
  ~ In strategy strategies ->
  (forall arrival response rest,
     sock = (arrival, Datagram response) :: rest ->
     0 < timeout -> arrival < clock w + timeout ->
     fst (pick_responses sock timeout strategy wrong_answers w) =
     Raise (Exception ("unsupported strategy: " +:+ strategy))) /\
  (silent_until (clock w + timeout) sock ->
     fst (pick_responses sock timeout strategy wrong_answers w) = Ok (Listed [])) /\
  (forall domain server_ip server_port,
     fst (resolve_over_udp domain server_ip server_port timeout strategy wrong_answers w) =
     Raise (Exception ("unsupported strategy: " +:+ strategy)) ->
     sent (snd (resolve_over_udp domain server_ip server_port timeout strategy
                  wrong_answers w))
     = sent w ++ [the_query domain server_ip server_port w] /\
     exists delay response rest,
       next_session w = (delay, Datagram response) :: rest /\ delay < timeout).
Proof.
  intros Hunknown. split_and!.
  - intros arrival response rest -> Htimeout Harrival.
    destruct (unknown_strategy_tests _ Hunknown) as (H1 & H2 & H3 & H4 & H5).
    rewrite pick_responses_unfold, pick_loop_datagram by lia.
    unfold dispatch. by rewrite H1, H2, H3, H4, H5.
  - intros Hsilent. by rewrite pick_responses_silent.
  - intros domain server_ip server_port Hraised. split.
    { by destruct (resolve_over_udp_footprint domain server_ip server_port timeout strategy
                     wrong_answers w) as (t & -> & _). }
    pose proof (unknown_strategy_outcome strategy timeout wrong_answers (arrivals w)
                  (query_sent domain server_ip server_port w) Hunknown) as Houtcome.
    rewrite resolve_over_udp_unfold in Hraised.
    destruct (pick_responses (arrivals w) timeout strategy wrong_answers
                (query_sent domain server_ip server_port w)) as [[picked|e] w'];
      cbn [fst] in *.
    { by rewrite Houtcome in Hraised. }
    injection Hraised as ->.
    destruct (Houtcome eq_refl) as (Htimeout & arrival & response & rest & Hsock & Harrival).
    unfold arrivals in Hsock.
    destruct (next_session w) as [|[delay event] session]; [done|].
    cbn in Hsock, Harrival. injection Hsock as <- -> <-.
    exists delay, response, session. split; [done|lia].
Qed.

Lemma unsupported_strategy_raises_on_receipt_witness :
  ~ In "pick-best" strategies /\
  fst (pick_responses (arrivals (example_world [(10, Datagram R1)])) 1000 "pick-best" ∅
         (query_sent "twitter.com" "8.8.8.8" 53 (example_world [(10, Datagram R1)])))
  = Raise (Exception "unsupported strategy: pick-best").
Proof.
  assert (~ In "pick-best" strategies) as Hunknown.
  { cbn. intros H. repeat destruct H as [H|H]; try discriminate H. exact H. }
  split; [exact Hunknown|].
  apply (proj1 (unsupported_strategy_raises_on_receipt "pick-best" 1000 ∅
                  (arrivals (example_world [(10, Datagram R1)]))
                  (query_sent "twitter.com" "8.8.8.8" 53 (example_world [(10, Datagram R1)]))
                  Hunknown) 1010 R1 []);
    [reflexivity|lia|cbn; lia].
Defined.

(** X1: whenever a resolve returns a result, whatever the strategy and
    the network, it has sent exactly one datagram, the type-A query for the
    domain carrying the process id, to the given endpoint, and it has used
    exactly one socket. *)
Theorem resolve_over_udp_sends_one_query
    (domain server_ip : string) (server_port timeout : Z) (strategy : string)
    (wrong_answers : gset string) (w : World) (answers : Answers) :
  fst (resolve_over_udp domain server_ip server_port timeout strategy wrong_answers w)
  = Ok answers ->
  sent (snd (resolve_over_udp domain server_ip server_port timeout strategy
               wrong_answers w))
  = sent w ++ [the_query domain server_ip server_port w] /\
  network (snd (resolve_over_udp domain server_ip server_port timeout strategy
                  wrong_answers w))
  = tail (network w).
Proof.
  intros _.
  destruct (resolve_over_udp_footprint domain server_ip server_port timeout strategy
              wrong_answers w) as (t & -> & _).
  done.
Qed.

Lemma resolve_over_udp_sends_one_query_witness :
  sent (snd (resolve_over_udp "twitter.com" "8.8.8.8" 53 1000 "pick-later" ∅
               (example_world [(10, Datagram R1); (20, Datagram R2)])))
  = [({| req_id := 4242; req_name := "twitter.com"; req_type := DNS_A |}, ("8.8.8.8", 53))].
Proof.
  apply (proj1 (resolve_over_udp_sends_one_query "twitter.com" "8.8.8.8" 53 1000
                  "pick-later" ∅ (example_world [(10, Datagram R1); (20, Datagram R2)])
                  (Flat ["2.2.2.2"]) eq_refl)).
Defined.

(** X3: with a time-out that is not positive the collector never enters
    its loop: whatever the socket holds, and for every strategy, known or
    not, it returns the empty list; so a resolve with such a time-out that
    returns at all returns the empty list. *)
Theorem pick_responses_without_time
    (timeout : Z) (strategy : string) (wrong_answers : gset string)
    (sock : Socket) (w : World) :
  timeout <= 0 ->
  fst (pick_responses sock timeout strategy wrong_answers w) = Ok (Listed []) /\
  forall domain server_ip server_port answers,
    fst (resolve_over_udp domain server_ip server_port timeout strategy wrong_answers w)
    = Ok answers ->
    answers = Flat [].
Proof.
  intros Htimeout. split.
  - rewrite pick_responses_unfold, pick_loop_expired by lia. done.
  - intros domain server_ip server_port answers.
    rewrite (resolve_over_udp_listed _ _ _ _ _ _ _ []
               (query_sent domain server_ip server_port w)); [by intros [= <-]|].
    rewrite pick_responses_unfold. apply pick_loop_expired. lia.
Qed.

Lemma pick_responses_without_time_witness :
  fst (pick_responses [(1000, Exceptional); (1000, Datagram R1)] 0 "pick-best" ∅
         (example_world []))
  = Ok (Listed []).
Proof.
  apply (proj1 (pick_responses_without_time 0 "pick-best" ∅
                  [(1000, Exceptional); (1000, Datagram R1)] (example_world [])
                  ltac:(lia))).
Defined.

(** ** At most one message is held unless the strategy is pick-all *)

Lemma pick_loop_holds_one started_at timeout strategy wrong_answers sock :
  strategy <> "pick-all" ->
  forall picked remaining w,
  (length picked <= 1)%nat ->
  match fst (pick_loop started_at timeout strategy wrong_answers sock picked remaining w) with
  | Ok (Listed responses) => (length responses <= 1)%nat
  | _ => True
  end.
Proof.
  intros Hstrategy.
  induction sock as [|[arrival event] sock IH]; intros picked remaining w Hpicked.
  - by rewrite pick_loop_silent.
  - rewrite pick_loop_cons.
    destruct (0 <? remaining); [|done].
    destruct (arrival <? clock w + remaining); [|done].
    cbv zeta. destruct event as [response| |]; [|done..].
    apply dispatch_rule; intros; first [done|by apply IH].
Qed.

(** X4: for every strategy other than pick-all, whatever the network
    delivers, a resolve never returns a list of address lists. *)
Theorem only_pick_all_returns_lists_of_lists
    (domain server_ip : string) (server_port timeout : Z) (strategy : string)
    (wrong_answers : gset string) (w : World) (lists : list (list string)) :
  strategy <> "pick-all" ->
  fst (resolve_over_udp domain server_ip server_port timeout strategy wrong_answers w)
  <> Ok (Nested lists).
Proof.
  intros Hstrategy. rewrite resolve_over_udp_unfold, pick_responses_unfold.
  pose proof (pick_loop_holds_one (clock (query_sent domain server_ip server_port w))
                timeout strategy wrong_answers (arrivals w) Hstrategy []
                (clock (query_sent domain server_ip server_port w) + timeout
                 - clock (query_sent domain server_ip server_port w))
                (query_sent domain server_ip server_port w)) as Hone.
  destruct (pick_loop _ _ _ _ _ _ _ _) as [[[response|responses]|e] w']; cbn [fst] in *.
  - unfold len, picked_len, len, dns_len. not_one. by holds.
  - specialize (Hone ltac:(cbn; lia)).
    destruct responses as [|r1 [|r2 responses]]; cbn in Hone; [done| |lia].
    cbn. by destruct (list_ipv4_addresses r1).
  - done.
Qed.

Lemma only_pick_all_returns_lists_of_lists_witness :
  "pick-later" <> "pick-all" /\
  fst (resolve_over_udp "twitter.com" "8.8.8.8" 53 1000 "pick-later" ∅
         (example_world [(10, Datagram R1); (20, Datagram R2)]))
  <> Ok (Nested [["1.1.1.1"]; ["2.2.2.2"]]).
Proof.
  split; [discriminate|].
  apply only_pick_all_returns_lists_of_lists. discriminate.
Defined.

(** ** pick-right and pick-right-later *)

Lemma delayed_forall (P : DNS -> Prop) now (responses : list (Z * DNS)) :
  Forall (fun r => P (snd r)) responses ->
  Forall (fun r => P (snd r)) (delayed now responses).
Proof.
  intros Hall. unfold delayed. apply Forall_map.
  eapply Forall_impl; [exact Hall|]. by intros [].
Qed.

Lemma delayed_window now timeout (responses : list (Z * DNS)) :
  Forall (fun r => 0 <= fst r < timeout) responses ->
  all_before (now + timeout) (delayed now responses).
Proof.
  intros Hall. unfold all_before, delayed. apply Forall_map.
  eapply Forall_impl; [exact Hall|]. intros [] ?; cbn in *; lia.
Qed.

(** pick-right passes over the messages the classifier rejects. *)
Lemma pick_loop_pick_right_skips started_at timeout wrong_answers wrong rest :
  all_before (started_at + timeout) wrong ->
  Forall (fun r => is_right_response (snd r) wrong_answers = Ok false) wrong ->
  forall picked w,
  clock w < started_at + timeout ->
  exists w',
    clock w <= clock w' < started_at + timeout /\
    w' = set_clock (clock w') w /\
    pick_loop started_at timeout "pick-right" wrong_answers (datagrams wrong ++ rest)
              picked (started_at + timeout - clock w) w =
    pick_loop started_at timeout "pick-right" wrong_answers rest picked
              (started_at + timeout - clock w') w'.
Proof.
  intros Hbefore Hwrong.
  induction wrong as [|[arrival response] wrong IH]; intros picked w Hclock.
  - exists w. rewrite set_clock_same. split; [lia|done].
  - apply Forall_cons in Hbefore as [Harrival Hbefore].
    apply Forall_cons in Hwrong as [Hresponse Hwrong]. cbn in Harrival, Hresponse.
    cbn [datagrams map app]. rewrite pick_loop_datagram by done.
    unfold dispatch. cbn -[pick_loop Z.max is_right_response clock]. rewrite Hresponse.
    fold (datagrams wrong).
    destruct (IH Hbefore Hwrong picked (set_clock (Z.max (clock w) arrival) w))
      as (w' & Hw' & Hsame & Hrun); [cbn; lia|].
    exists w'. split; [cbn in Hw'; lia|]. split; [exact Hsame|exact Hrun].
Qed.

(** The socket of a resolve whose session begins with the messages
    [responses]. *)
Lemma arrivals_app w responses rest :
  next_session w = datagrams responses ++ rest ->
  arrivals w = datagrams (delayed (clock w) responses) ++ delayed (clock w) rest.
Proof.
  intros Hsession. unfold arrivals. rewrite Hsession.
  unfold delayed at 1. rewrite map_app.
  fold (delayed (clock w) (datagrams responses)) (delayed (clock w) rest).
  by rewrite delayed_datagrams.
Qed.

(** X5: with pick-right the collector passes over every message the
    classifier rejects and returns the first one it accepts, outside a
    list; what the socket holds after that message is never looked at. *)
Theorem pick_right_takes_first_right
    (domain server_ip : string) (server_port timeout : Z)
    (wrong_answers : gset string) (w : World)
    (wrong : list (Z * DNS)) (delay : Z) (right : DNS) (rest : list (Z * Event)) :
  next_session w = datagrams wrong ++ (delay, Datagram right) :: rest ->
  Forall (fun r => 0 <= fst r < timeout) wrong ->
  0 <= delay < timeout ->
  Forall (fun r => is_right_response (snd r) wrong_answers = Ok false) wrong ->
  is_right_response right wrong_answers = Ok true ->
  fst (pick_responses (arrivals w) timeout "pick-right" wrong_answers
         (query_sent domain server_ip server_port w)) = Ok (Bare right).
Proof.
  intros Hsession Hwindow Hdelay Hwrong Hright.
  rewrite pick_responses_unfold, (arrivals_app _ _ _ Hsession).
  change (delayed (clock w) ((delay, Datagram right) :: rest))
    with ((clock w + delay, Datagram right) :: delayed (clock w) rest).
  set (q := query_sent domain server_ip server_port w).
  destruct (pick_loop_pick_right_skips (clock q) timeout wrong_answers
              (delayed (clock w) wrong)
              ((clock w + delay, Datagram right) :: delayed (clock w) rest)
              (delayed_window _ _ _ Hwindow)
              (delayed_forall (fun r => is_right_response r wrong_answers = Ok false)
                 _ _ Hwrong)
              [] q)
    as (w' & Hw' & _ & ->); [lia|].
  rewrite pick_loop_datagram by (cbn in *; lia).
  unfold dispatch. cbn -[pick_loop Z.max is_right_response]. by rewrite Hright.
Qed.

Lemma pick_right_takes_first_right_witness :
  fst (pick_responses (arrivals (example_world [(10, Datagram R1); (20, Datagram R2);
                                                (30, Undecodable)]))
         1000 "pick-right" {["1.1.1.1"]}
         (query_sent "twitter.com" "8.8.8.8" 53
            (example_world [(10, Datagram R1); (20, Datagram R2); (30, Undecodable)])))
  = Ok (Bare R2).
Proof.
  apply (pick_right_takes_first_right "twitter.com" "8.8.8.8" 53 1000 {["1.1.1.1"]}
           (example_world [(10, Datagram R1); (20, Datagram R2); (30, Undecodable)])
           [(10, R1)] 20 R2 [(30, Undecodable)]).
  - reflexivity.
  - repeat constructor; cbn; lia.
  - lia.
  - repeat constructor.
  - vm_compute. reflexivity.
Defined.

(** X6: with pick-right, when the classifier rejects every message
    delivered before the deadline, the resolve returns the empty list. *)
Theorem pick_right_rejects_all
    (domain server_ip : string) (server_port timeout : Z)
    (wrong_answers : gset string) (w : World) (wrong : list (Z * DNS)) :
  delivers 0 timeout wrong (next_session w) ->
  Forall (fun r => is_right_response (snd r) wrong_answers = Ok false) wrong ->
  fst (resolve_over_udp domain server_ip server_port timeout "pick-right" wrong_answers w)
  = Ok (Flat []).
Proof.
  intros Hdelivers Hwrong.
  rewrite (resolve_over_udp_listed _ _ _ _ _ _ _ []
             (waited timeout (query_sent domain server_ip server_port w))); [done|].
  destruct wrong as [|first wrong].
  { destruct Hdelivers as (late & Hsession & _ & Hlate). cbn in Hsession.
    apply pick_responses_silent. apply silent_arrivals. by rewrite Hsession. }
  pose proof (delivers_window _ _ _ _ _ Hdelivers) as Htimeout.
  destruct Hdelivers as (late & Hsession & Hwindow & Hlate).
  rewrite pick_responses_unfold, (arrivals_app _ _ _ Hsession).
  set (q := query_sent domain server_ip server_port w).
  destruct (pick_loop_pick_right_skips (clock q) timeout wrong_answers
              (delayed (clock w) (first :: wrong)) (delayed (clock w) late)
              (delayed_window _ _ _ Hwindow)
              (delayed_forall (fun r => is_right_response r wrong_answers = Ok false)
                 _ _ Hwrong)
              [] q)
    as (w' & Hw' & Hsame & ->); [lia|].
  rewrite pick_loop_silent.
  - holds. unfold waited. holds. rewrite Hsame. cbn [clock set_clock].
    rewrite set_clock_set_clock. do 2 f_equal. lia.
  - replace (clock w' + _) with (clock w + timeout) by (cbn; lia).
    destruct late as [|[] ?]; cbn in *; [done|lia].
Qed.

Lemma pick_right_rejects_all_witness :
  fst (resolve_over_udp "twitter.com" "8.8.8.8" 53 1000 "pick-right" {["1.1.1.1"]}
         (example_world [(10, Datagram R1); (20, Datagram R1)]))
  = Ok (Flat []).
Proof.
  apply (pick_right_rejects_all "twitter.com" "8.8.8.8" 53 1000 {["1.1.1.1"]}
           (example_world [(10, Datagram R1); (20, Datagram R1)]) [(10, R1); (20, R1)]).
  - exists []. split_and!; [reflexivity| |exact I]. repeat constructor; cbn; lia.
  - repeat constructor.
Defined.

Lemma delayed_classified wrong_answers now responses :
  classified wrong_answers responses ->
  classified wrong_answers (delayed now responses).
Proof.
  apply (delayed_forall (fun r => exists right, is_right_response r wrong_answers = Ok right)).
Qed.

(** pick-right-later holds the last message the classifier accepted. *)
Lemma pick_loop_pick_right_later started_at timeout wrong_answers responses late :
  all_before (started_at + timeout) responses ->
  classified wrong_answers responses ->
  silent_until (started_at + timeout) late ->
  forall picked w,
  clock w < started_at + timeout ->
  pick_loop started_at timeout "pick-right-later" wrong_answers
            (datagrams responses ++ late) picked
            (started_at + timeout - clock w) w =
  (Ok (Listed (match last (List.filter (genuine wrong_answers) (snd <$> responses)) with
               | Some r => [r]
               | None => picked
               end)),
   set_clock (started_at + timeout) w).
Proof.
  intros Hbefore Hclassified Hlate.
  induction responses as [|[arrival response] responses IH]; intros picked w Hclock.
  - cbn [datagrams map app fmap list_fmap List.filter last]. rewrite pick_loop_silent.
    + holds. do 2 f_equal. lia.
    + by replace (clock w + _) with (started_at + timeout) by lia.
  - apply Forall_cons in Hbefore as [Harrival Hbefore].
    apply Forall_cons in Hclassified as [[right Hresponse] Hclassified].
    cbn in Harrival, Hresponse.
    cbn [datagrams map app]. rewrite pick_loop_datagram by done.
    unfold dispatch. cbn -[pick_loop Z.max is_right_response clock]. rewrite Hresponse.
    fold (datagrams responses).
    cbn [fmap list_fmap List.filter snd]. unfold genuine at 1. rewrite Hresponse.
    destruct right.
    + rewrite (IH Hbefore Hclassified _ (set_clock (Z.max (clock w) arrival) w))
        by (cbn; lia).
      rewrite last_cons. by destruct (last _).
    + by rewrite (IH Hbefore Hclassified _ (set_clock (Z.max (clock w) arrival) w))
        by (cbn; lia).
Qed.

(** X7: with pick-right-later, when the classifier answers on every message
    delivered before the deadline, the resolve returns the address list of
    the last message the classifier accepted, and the empty list when it
    accepted none. *)
Theorem pick_right_later_returns_last_right
    (domain server_ip : string) (server_port timeout : Z)
    (wrong_answers : gset string) (w : World) (responses : list (Z * DNS)) :
  delivers 0 timeout responses (next_session w) ->
  classified wrong_answers responses ->
  fst (resolve_over_udp domain server_ip server_port timeout "pick-right-later"
         wrong_answers w)
  = match last (List.filter (genuine wrong_answers) (snd <$> responses)) with
    | Some response => Flat <$> list_ipv4_addresses response
    | None => Ok (Flat [])
    end.
Proof.
  intros Hdelivers Hclassified.
  assert (pick_responses (arrivals w) timeout "pick-right-later" wrong_answers
            (query_sent domain server_ip server_port w)
          = (Ok (Listed (match last (List.filter (genuine wrong_answers)
                                       (snd <$> responses)) with
                         | Some r => [r]
                         | None => []
                         end)),
             waited timeout (query_sent domain server_ip server_port w))) as Hpicked.
  { destruct responses as [|first responses].
    { destruct Hdelivers as (late & Hsession & _ & Hlate). cbn in Hsession.
      apply pick_responses_silent. apply silent_arrivals. by rewrite Hsession. }
    pose proof (delivers_window _ _ _ _ _ Hdelivers) as Htimeout.
    destruct Hdelivers as (late & Hsession & Hwindow & Hlate).
    rewrite pick_responses_unfold, (arrivals_app _ _ _ Hsession).
    set (q := query_sent domain server_ip server_port w).
    rewrite (pick_loop_pick_right_later (clock q) timeout wrong_answers
               (delayed (clock w) (first :: responses)) (delayed (clock w) late)
               (delayed_window _ _ _ Hwindow) (delayed_classified _ _ _ Hclassified)).
    - rewrite delayed_responses. unfold waited. by holds.
    - destruct late as [|[] ?]; cbn in *; [done|lia].
    - lia. }
  rewrite (resolve_over_udp_listed _ _ _ _ _ _ _ _ _ Hpicked).
  by destruct (last _).
Qed.

Lemma pick_right_later_returns_last_right_witness :
  fst (resolve_over_udp "twitter.com" "8.8.8.8" 53 1000 "pick-right-later" {["1.1.1.1"]}
         (example_world [(10, Datagram R23); (20, Datagram R2); (30, Datagram R1)]))
  = Ok (Flat ["2.2.2.2"]).
Proof.
  etrans;
    [apply (pick_right_later_returns_last_right "twitter.com" "8.8.8.8" 53 1000
              {["1.1.1.1"]}
              (example_world [(10, Datagram R23); (20, Datagram R2); (30, Datagram R1)])
              [(10, R23); (20, R2); (30, R1)])|].
  - exists []. split_and!; [reflexivity| |exact I]. repeat constructor; cbn; lia.
  - repeat constructor; eexists; vm_compute; reflexivity.
  - vm_compute. reflexivity.
Defined.

(** ** pick-later and pick-all on any number of messages *)

Lemma delayed_last now (responses : list (Z * DNS)) :
  snd <$> last (delayed now responses) = snd <$> last responses.
Proof.
  unfold delayed. induction responses as [|[] responses IH]; [done|].
  cbn [map]. rewrite !last_cons.
  destruct (last responses), (last (map _ responses)); by cbn in *.
Qed.

(** X8: with pick-later the resolve returns the address list of the last
    message delivered before the deadline, however many came before it, and
    the empty list when none was delivered. *)
Theorem pick_later_returns_last_of_any
    (domain server_ip : string) (server_port timeout : Z)
    (wrong_answers : gset string) (w : World) (responses : list (Z * DNS)) :
  delivers 0 timeout responses (next_session w) ->
  fst (resolve_over_udp domain server_ip server_port timeout "pick-later" wrong_answers w)
  = match last responses with
    | Some r => Flat <$> list_ipv4_addresses (snd r)
    | None => Ok (Flat [])
    end.
Proof.
  intros Hdelivers. apply (delivers_delayed (clock w)) in Hdelivers.
  rewrite (resolve_over_udp_listed _ _ _ _ _ _ _ _ _
             (pick_responses_pick_later (arrivals w) timeout wrong_answers _
                (query_sent domain server_ip server_port w) Hdelivers)).
  pose proof (delayed_last (clock w) responses) as Hlast.
  destruct (last (delayed (clock w) responses)) as [[]|], (last responses) as [[]|];
    cbn in Hlast; by simplify_eq.
Qed.

Lemma pick_later_returns_last_of_any_witness :
  fst (resolve_over_udp "twitter.com" "8.8.8.8" 53 1000 "pick-later" ∅
         (example_world [(10, Datagram R1); (20, Datagram R2); (30, Datagram R23)]))
  = Ok (Flat ["2.2.2.2"; "3.3.3.3"]).
Proof.
  etrans;
    [apply (pick_later_returns_last_of_any "twitter.com" "8.8.8.8" 53 1000 ∅
              (example_world [(10, Datagram R1); (20, Datagram R2); (30, Datagram R23)])
              [(10, R1); (20, R2); (30, R23)])|reflexivity].
  exists []. split_and!; [reflexivity| |exact I]. repeat constructor; cbn; lia.
Defined.

(** X9: with pick-all the shape of the result depends on how many messages
    were delivered before the deadline: none gives the empty list, exactly
    one gives that message's flat address list, two or more give the list of
    all their address lists in arrival order. *)
Theorem pick_all_shapes_by_count
    (domain server_ip : string) (server_port timeout : Z)
    (wrong_answers : gset string) (w : World) (responses : list (Z * DNS)) :
  delivers 0 timeout responses (next_session w) ->
  fst (resolve_over_udp domain server_ip server_port timeout "pick-all" wrong_answers w)
  = match snd <$> responses with
    | [] => Ok (Flat [])
    | [response] => Flat <$> list_ipv4_addresses response
    | _ => Nested <$> mapM list_ipv4_addresses (snd <$> responses)
    end.
Proof.
  intros Hdelivers.
  by rewrite (resolve_over_udp_listed _ _ _ _ _ _ _ _ _
                (pick_all_collected domain server_ip server_port timeout wrong_answers
                   w responses Hdelivers)).
Qed.

Lemma pick_all_shapes_by_count_witness :
  fst (resolve_over_udp "twitter.com" "8.8.8.8" 53 1000 "pick-all" ∅
         (example_world [(10, Datagram R23)]))
  = Ok (Flat ["2.2.2.2"; "3.3.3.3"]).
Proof.
  etrans;
    [apply (pick_all_shapes_by_count "twitter.com" "8.8.8.8" 53 1000 ∅
              (example_world [(10, Datagram R23)]) [(10, R23)])|reflexivity].
  exists []. split_and!; [reflexivity| |exact I]. repeat constructor; cbn; lia.
Defined.

(** ** Error conditions and datagrams that do not decode *)

(** X10: the first event seen before the deadline is handled before the
    strategy is looked at: an error condition makes the resolve raise
    "failed to read dns response" and a datagram that does not decode makes
    it raise the decoder's error, for every strategy, known or not. *)
Theorem first_event_fails_before_strategy
    (domain server_ip : string) (server_port timeout : Z) (strategy : string)
    (wrong_answers : gset string) (w : World) (delay : Z) (event : Event)
    (rest : list (Z * Event)) :
  next_session w = (delay, event) :: rest ->
  0 <= delay < timeout ->
  (event = Exceptional ->
   fst (resolve_over_udp domain server_ip server_port timeout strategy wrong_answers w)
   = Raise (Exception "failed to read dns response")) /\
  (event = Undecodable ->
   fst (resolve_over_udp domain server_ip server_port timeout strategy wrong_answers w)
   = Raise UnpackError).
Proof.
  intros Hsession Hdelay.
  rewrite resolve_over_udp_unfold, pick_responses_unfold.
  unfold arrivals. rewrite Hsession. cbn [delayed map].
  rewrite pick_loop_cons. cbn [clock query_sent]. do 2 holds.
  by split; intros ->.
Qed.

Lemma first_event_fails_before_strategy_witness :
  fst (resolve_over_udp "twitter.com" "8.8.8.8" 53 1000 "pick-best" ∅
         (example_world [(10, Undecodable); (20, Datagram R1)]))
  = Raise UnpackError.
Proof.
  apply (proj2 (first_event_fails_before_strategy "twitter.com" "8.8.8.8" 53 1000
                  "pick-best" ∅ (example_world [(10, Undecodable); (20, Datagram R1)])
                  10 Undecodable [(20, Datagram R1)] eq_refl ltac:(lia))).
  reflexivity.
Defined.

(** pick-all holds the messages of a prefix and goes on with what follows. *)
Lemma pick_loop_pick_all_prefix started_at timeout wrong_answers responses rest :
  all_before (started_at + timeout) responses ->
  forall picked w,
  clock w < started_at + timeout ->
  exists w',
    clock w <= clock w' < started_at + timeout /\
    w' = set_clock (clock w') w /\
    pick_loop started_at timeout "pick-all" wrong_answers (datagrams responses ++ rest)
              picked (started_at + timeout - clock w) w =
    pick_loop started_at timeout "pick-all" wrong_answers rest
              (picked ++ (snd <$> responses)) (started_at + timeout - clock w') w'.
Proof.
  intros Hbefore.
  induction responses as [|[arrival response] responses IH]; intros picked w Hclock.
  - exists w. rewrite set_clock_same, app_nil_r. split; [lia|done].
  - apply Forall_cons in Hbefore as [Harrival Hbefore]. cbn in Harrival.
    cbn [datagrams map app]. rewrite pick_loop_datagram by done.
    unfold dispatch. cbn -[pick_loop Z.max clock]. fold (datagrams responses).
    destruct (IH Hbefore (picked ++ [response]) (set_clock (Z.max (clock w) arrival) w))
      as (w' & Hw' & Hsame & Hrun); [cbn; lia|].
    exists w'. split; [cbn in Hw'; lia|]. split; [exact Hsame|].
    rewrite Hrun. by rewrite <- app_assoc.
Qed.

(** X11: with pick-all nothing collected survives a failure: when an error
    condition or a datagram that does not decode follows any number of
    collected messages before the deadline, the resolve raises and returns
    none of them. *)
Theorem pick_all_failure_discards_collected
    (domain server_ip : string) (server_port timeout : Z)
    (wrong_answers : gset string) (w : World) (responses : list (Z * DNS))
    (delay : Z) (event : Event) (rest : list (Z * Event)) :
  next_session w = datagrams responses ++ (delay, event) :: rest ->
  Forall (fun r => 0 <= fst r < timeout) responses ->
  0 <= delay < timeout ->
  (event = Exceptional ->
   fst (resolve_over_udp domain server_ip server_port timeout "pick-all" wrong_answers w)
   = Raise (Exception "failed to read dns response")) /\
  (event = Undecodable ->
   fst (resolve_over_udp domain server_ip server_port timeout "pick-all" wrong_answers w)
   = Raise UnpackError).
Proof.
  intros Hsession Hwindow Hdelay.
  rewrite resolve_over_udp_unfold, pick_responses_unfold, (arrivals_app _ _ _ Hsession).
  change (delayed (clock w) ((delay, event) :: rest))
    with ((clock w + delay, event) :: delayed (clock w) rest).
  set (q := query_sent domain server_ip server_port w).
  destruct (pick_loop_pick_all_prefix (clock q) timeout wrong_answers
              (delayed (clock w) responses)
              ((clock w + delay, event) :: delayed (clock w) rest)
              (delayed_window _ _ _ Hwindow) [] q)
    as (w' & Hw' & _ & ->); [lia|].
  rewrite pick_loop_cons.
  replace (0 <? clock q + timeout - clock w') with true
    by (symmetry; apply Z.ltb_lt; lia).
  replace (clock w + delay <? clock w' + (clock q + timeout - clock w')) with true
    by (symmetry; apply Z.ltb_lt; cbn in *; lia).
  by split; intros ->.
Qed.

Lemma pick_all_failure_discards_collected_witness :
  fst (resolve_over_udp "twitter.com" "8.8.8.8" 53 1000 "pick-all" ∅
         (example_world [(10, Datagram R1); (20, Datagram R23); (30, Exceptional)]))
  = Raise (Exception "failed to read dns response").
Proof.
  apply (proj1 (pick_all_failure_discards_collected "twitter.com" "8.8.8.8" 53 1000 ∅
                  (example_world [(10, Datagram R1); (20, Datagram R23); (30, Exceptional)])
                  [(10, R1); (20, R23)] 30 Exceptional [] eq_refl
                  ltac:(repeat constructor; cbn; lia) ltac:(lia))).
  reflexivity.
Defined.

(** ** The addresses of a message *)

Lemma octet_format b :
  (1 <= String.length (octet b) <= 3)%nat /\
  PyStr.count "." (octet b) = 0%nat /\
  PyStr.count ":" (octet b) = 0%nat.
Proof. destruct b; vm_compute; repeat split; lia. Qed.

(** An octet is written as [str] writes its value. *)
Lemma octet_str b : octet b = str_of_int (Z.of_N (Byte.to_N b)).
Proof. by destruct b. Qed.

Lemma inet_ntoa_dotted_quad packed s : inet_ntoa packed = Ok s -> dotted_quad s.
Proof.
  destruct packed as [|a [|b [|c [|d [|]]]]]; try discriminate.
  intros [= <-].
  exists (Z.of_N (Byte.to_N a)), (Z.of_N (Byte.to_N b)),
         (Z.of_N (Byte.to_N c)), (Z.of_N (Byte.to_N d)).
  pose proof (Byte.to_N_bounded a). pose proof (Byte.to_N_bounded b).
  pose proof (Byte.to_N_bounded c). pose proof (Byte.to_N_bounded d).
  split_and!; [lia..|]. by rewrite !octet_str.
Qed.

Lemma dotted_quad_no_colon s : dotted_quad s -> PyStr.count ":" s = 0%nat.
Proof.
  intros (a & b & c & d & _ & _ & _ & _ & ->).
  rewrite !count_append, !count_colon_str. reflexivity.
Qed.

Lemma parse_at_without_colon at_ :
  PyStr.count ":" at_ = 0%nat -> parse_at at_ = Ok (at_, 53).
Proof. intros Hcount. unfold parse_at. by rewrite contains_count, Hcount. Qed.

Lemma mapM_inet_ntoa_spec (records : list RR) addresses :
  mapM (fun answer => inet_ntoa (rdata answer)) records = Ok addresses ->
  Forall2 (fun answer address => inet_ntoa (rdata answer) = Ok address) records addresses.
Proof.
  revert addresses. induction records as [|record records IH]; intros addresses.
  - intros [= <-]. constructor.
  - cbn. destruct (inet_ntoa (rdata record)) as [s|] eqn:Hs; [|done]. cbn.
    destruct (mapM _ records) as [rest|]; [|done]. cbn. intros [= <-].
    constructor; [done|by apply IH].
Qed.

(** X12: when the address list of a message can be built it has one entry
    for each answer of type A, in order; every entry is a dotted quad, and
    so is accepted by [parse_at] as a host with the default port 53. *)
Theorem list_ipv4_addresses_are_dotted_quads (response : DNS) (addresses : list string) :
  list_ipv4_addresses response = Ok addresses ->
  length addresses = length (filter (fun answer => DNS_A = rr_type answer) (an response)) /\
  Forall dotted_quad addresses /\
  Forall (fun address => parse_at address = Ok (address, 53)) addresses.
Proof.
  intros Haddresses. apply mapM_inet_ntoa_spec in Haddresses.
  assert (Forall dotted_quad addresses) as Hquads.
  { induction Haddresses; constructor; [by eapply inet_ntoa_dotted_quad|done]. }
  split_and!.
  - symmetry. by eapply Forall2_length.
  - exact Hquads.
  - eapply Forall_impl; [exact Hquads|].
    intros address Hquad. by apply parse_at_without_colon, dotted_quad_no_colon.
Qed.

Lemma list_ipv4_addresses_are_dotted_quads_witness :
  Forall (fun address => parse_at address = Ok (address, 53)) ["2.2.2.2"; "3.3.3.3"].
Proof.
  apply (proj2 (proj2 (list_ipv4_addresses_are_dotted_quads R23 ["2.2.2.2"; "3.3.3.3"]
                         eq_refl))).
Defined.

Lemma octet_reads_back b : PyStr.int (octet b) = Ok (Z.of_N (Byte.to_N b)).
Proof. destruct b; reflexivity. Qed.

Lemma octet_injective a b : octet a = octet b -> a = b.
Proof.
  intros Hsame. pose proof (octet_reads_back a) as Ha. rewrite Hsame, octet_reads_back in Ha.
  injection Ha as Ha. apply N2Z.inj in Ha.
  pose proof (Byte.of_to_N a) as Hofa. rewrite <- Ha, Byte.of_to_N in Hofa. congruence.
Qed.

Lemma inet_ntoa_split a b c d s :
  inet_ntoa [a; b; c; d] = Ok s ->
  PyStr.split "." s = [octet a; octet b; octet c; octet d].
Proof.
  intros [= <-].
  destruct (octet_format a) as (_ & Ha & _), (octet_format b) as (_ & Hb & _),
           (octet_format c) as (_ & Hc & _), (octet_format d) as (_ & Hd & _).
  change (octet a +:+ "." +:+ octet b +:+ "." +:+ octet c +:+ "." +:+ octet d)
    with (octet a +:+ String "." (octet b +:+ String "." (octet c +:+ String "." (octet d)))).
  rewrite (split_at_separator "." (octet a)) by done.
  rewrite (split_at_separator "." (octet b)) by done.
  rewrite (split_at_separator "." (octet c)) by done.
  by rewrite split_no_separator.
Qed.

Lemma inet_ntoa_injective p q s : inet_ntoa p = Ok s -> inet_ntoa q = Ok s -> p = q.
Proof.
  intros Hp Hq.
  destruct p as [|a [|b [|c [|d [|]]]]]; try discriminate.
  destruct q as [|a' [|b' [|c' [|d' [|]]]]]; try discriminate.
  apply inet_ntoa_split in Hp, Hq. rewrite Hp in Hq.
  injection Hq as Ha Hb Hc Hd.
  by rewrite (octet_injective _ _ Ha), (octet_injective _ _ Hb),
             (octet_injective _ _ Hc), (octet_injective _ _ Hd).
Qed.

(** X13: the address list loses nothing: two messages with the same
    address list carry the same address bytes in their answers of type A,
    in the same order. *)
Theorem list_ipv4_addresses_injective (r1 r2 : DNS) (addresses : list string) :
  list_ipv4_addresses r1 = Ok addresses ->
  list_ipv4_addresses r2 = Ok addresses ->
  rdata <$> filter (fun answer => DNS_A = rr_type answer) (an r1) =
  rdata <$> filter (fun answer => DNS_A = rr_type answer) (an r2).
Proof.
  unfold list_ipv4_addresses.
  generalize (filter (fun answer => DNS_A = rr_type answer) (an r1)) as l1.
  generalize (filter (fun answer => DNS_A = rr_type answer) (an r2)) as l2.
  intros l2 l1 H1 H2. apply mapM_inet_ntoa_spec in H1, H2.
  revert l2 H2. induction H1 as [|x1 s l1 rest Hx1 _ IH]; intros l2 H2.
  - by inversion H2.
  - inversion H2 as [|x2 ? l2' ? Hx2 Hrest]; subst. cbn. f_equal.
    + by eapply inet_ntoa_injective.
    + by apply IH.
Qed.

Lemma list_ipv4_addresses_injective_witness :
  rdata <$> filter (fun answer => DNS_A = rr_type answer) (an R23) =
  rdata <$> filter (fun answer => DNS_A = rr_type answer)
              (an {| dns_id := 7; an := an R23; sections_size := 60 |}).
Proof.
  apply (list_ipv4_addresses_injective R23 _ ["2.2.2.2"; "3.3.3.3"]); reflexivity.
Defined.

(** ** More on the classifier *)

(** X14: rejecting fewer addresses never turns an accepted message into a
    rejected one, and with nothing to reject the classifier accepts exactly
    the messages that have an address. *)
Theorem is_right_response_shrinking_set
    (response : DNS) (wrong_answers fewer : gset string) (answers : list string) :
  list_ipv4_addresses response = Ok answers ->
  fewer ⊆ wrong_answers ->
  (is_right_response response wrong_answers = Ok true ->
   is_right_response response fewer = Ok true) /\
  is_right_response response ∅ = Ok (negb (bool_decide (answers = []))).
Proof.
  intros Hanswers Hfewer. unfold is_right_response. rewrite Hanswers.
  cbn [mbind result_bind].
  destruct answers as [|a1 [|a2 answers]]; [done| |].
  - rewrite !bool_decide_eq_false_2 by done.
    unfold len, list_len. cbn [length existsb]. cbn -[bool_decide].
    rewrite !orb_false_r. split.
    + intros [= Hright]. do 2 f_equal. apply negb_true_iff in Hright.
      apply negb_true_iff. apply bool_decide_eq_false in Hright.
      apply bool_decide_eq_false. set_solver.
    + by rewrite (bool_decide_eq_false_2 (a1 ∈ (∅ : gset string))) by set_solver.
  - rewrite !bool_decide_eq_false_2 by done.
    unfold len, list_len. cbn [length]. by holds.
Qed.

Lemma is_right_response_shrinking_set_witness :
  is_right_response R2 {["1.1.1.1"]} = Ok true.
Proof.
  apply (proj1 (is_right_response_shrinking_set R2 {["1.1.1.1"; "3.3.3.3"]} {["1.1.1.1"]}
                  ["2.2.2.2"] eq_refl ltac:(set_solver))).
  vm_compute. reflexivity.
Defined.

(** ** More on endpoint strings *)

Lemma split_head c s piece rest :
  PyStr.split c s = piece :: rest ->
  PyStr.count c piece = 0%nat /\
  match rest with
  | [] => s = piece
  | _ => exists s', s = piece +:+ String c s' /\ PyStr.split c s' = rest
  end.
Proof.
  revert piece rest. induction s as [|d s IH]; intros piece rest.
  - intros [= <- <-]. done.
  - cbn [PyStr.split]. destruct (Ascii.eqb d c) eqn:Hd.
    + apply Ascii.eqb_eq in Hd as ->. intros [= <- <-]. split; [done|].
      pose proof (split_length c s) as Hlength.
      destruct (PyStr.split c s) eqn:Hsplit; [cbn in Hlength; lia|].
      by exists s.
    + destruct (PyStr.split c s) as [|piece' pieces] eqn:Hsplit.
      { pose proof (split_length c s) as Hlength. rewrite Hsplit in Hlength.
        cbn in Hlength. lia. }
      intros [= <- <-]. destruct (IH piece' pieces eq_refl) as [Hcount Hrest].
      split; [cbn [PyStr.count]; by rewrite Hd|].
      destruct pieces as [|piece'' pieces]; [by rewrite Hrest|].
      destruct Hrest as (s' & -> & Hs'). by exists s'.
Qed.

Lemma parse_at_with_port prefix suffix :
  PyStr.count ":" prefix = 0%nat -> PyStr.count ":" suffix = 0%nat ->
  parse_at (prefix +:+ ":" +:+ suffix) = (PyStr.int suffix ≫= fun port => Ok (prefix, port)).
Proof.
  intros Hprefix Hsuffix. unfold parse_at.
  change (":" +:+ suffix) with (String ":" suffix).
  rewrite contains_count, count_append, Hprefix. cbn [PyStr.count].
  rewrite Ascii.eqb_refl, Hsuffix. cbn [Nat.add Nat.eqb negb].
  by rewrite split_at_separator, split_no_separator.
Qed.

(** X15: whenever [parse_at] returns, the host it returns has no colon:
    either the whole string had none and the port is 53, or the string is
    the host, one colon, and a text without colon that [int] reads as the
    port. *)
Theorem parse_at_returns_host_without_colon (at_ server_ip : string) (server_port : Z) :
  parse_at at_ = Ok (server_ip, server_port) ->
  PyStr.count ":" server_ip = 0%nat /\
  ((at_ = server_ip /\ server_port = 53) \/
   (exists suffix,
      at_ = server_ip +:+ ":" +:+ suffix /\
      PyStr.count ":" suffix = 0%nat /\
      PyStr.int suffix = Ok server_port)).
Proof.
  unfold parse_at. rewrite contains_count.
  destruct (PyStr.count ":" at_) as [|n] eqn:Hcount; cbn [Nat.eqb negb].
  - intros [= <- <-]. split; [done|]. by left.
  - destruct (PyStr.split ":" at_) as [|p1 [|p2 [|p3 pieces]]] eqn:Hsplit; try done.
    destruct (PyStr.int p2) as [port|] eqn:Hport; [|done]. intros [= <- <-].
    destruct (split_head _ _ _ _ Hsplit) as (Hp1 & s' & -> & Hs').
    destruct (split_head _ _ _ _ Hs') as (Hp2 & ->).
    split; [done|]. right. by exists p2.
Qed.

Lemma parse_at_returns_host_without_colon_witness :
  PyStr.count ":" "localhost" = 0%nat.
Proof.
  apply (proj1 (parse_at_returns_host_without_colon "localhost: 5353 " "localhost" 5353
                  eq_refl)).
Defined.

(** X16: an endpoint written the way [resolve] writes it in its log line,
    host, colon, port, is read back by [parse_at] as the same host and the
    same port, for every host without a colon and every integer port. *)
Theorem parse_at_reads_back_endpoint (server_ip : string) (server_port : Z) :
  PyStr.count ":" server_ip = 0%nat ->
  parse_at (endpoint_text server_ip server_port) = Ok (server_ip, server_port).
Proof.
  intros Hhost. unfold endpoint_text.
  rewrite parse_at_with_port by (done || apply count_colon_str).
  by rewrite int_of_str.
Qed.

Lemma parse_at_reads_back_endpoint_witness :
  parse_at (endpoint_text "8.8.8.8" 5353) = Ok ("8.8.8.8", 5353).
Proof. apply parse_at_reads_back_endpoint. reflexivity. Defined.

(** ** More on discovery *)

Lemma discover_once_world domain server_ip server_port timeout w :
  snd (discover_once domain server_ip server_port timeout w) =
  snd (resolve_over_udp domain server_ip server_port timeout "pick-all" ∅ w).
Proof.
  unfold discover_once, mbind, M_bind.
  by destruct (resolve_over_udp _ _ _ _ _ _ w) as [[answers|e] w'].
Qed.

Lemma discover_loop_queries server_ip server_port timeout domains :
  forall found w found',
  fst (discover_loop domains server_ip server_port timeout found w) = Ok found' ->
  sent (snd (discover_loop domains server_ip server_port timeout found w))
  = sent w ++ ((fun domain => the_query domain server_ip server_port w) <$> domains) /\
  network (snd (discover_loop domains server_ip server_port timeout found w))
  = drop (length domains) (network w).
Proof.
  induction domains as [|domain domains IH]; intros found w found' Hreturns.
  - cbn. by rewrite app_nil_r.
  - cbn [discover_loop] in *. unfold mbind, M_bind in *.
    pose proof (discover_once_world domain server_ip server_port timeout w) as Hworld.
    destruct (resolve_over_udp_footprint domain server_ip server_port timeout "pick-all"
                ∅ w) as (t & Hfootprint & _).
    rewrite Hfootprint in Hworld.
    destruct (discover_once domain server_ip server_port timeout w) as [[once|e] w'];
      [|discriminate Hreturns].
    cbn [snd] in Hworld. subst w'.
    destruct (IH _ _ _ Hreturns) as [-> ->]. cbn [sent network set_clock query_sent].
    split.
    + cbn [fmap list_fmap]. by rewrite <- app_assoc.
    + destruct (network w); [cbn [tail]; by rewrite !drop_nil|done].
Qed.

(** X17: when discover returns a set it has sent exactly one query for each
    domain, in the order of the domains, each to the endpoint that was
    parsed, and has used one socket for each. *)
Theorem discover_sends_one_query_per_domain
    (domains : list string) (at_ server_ip : string) (server_port timeout : Z)
    (w : World) (found : gset string) :
  parse_at at_ = Ok (server_ip, server_port) ->
  fst (discover domains at_ timeout w) = Ok found ->
  sent (snd (discover domains at_ timeout w))
  = sent w ++ ((fun domain => the_query domain server_ip server_port w) <$> domains) /\
  network (snd (discover domains at_ timeout w)) = drop (length domains) (network w).
Proof.
  intros Hat. unfold discover, mbind, M_bind, lift. rewrite Hat.
  apply discover_loop_queries.
Qed.

Lemma discover_sends_one_query_per_domain_witness :
  sent (snd (discover ["twitter.com"; "youtube.com"] "8.8.8.8" 1000 discovery_world))
  = sent discovery_world
    ++ ((fun domain => the_query domain "8.8.8.8" 53 discovery_world)
          <$> ["twitter.com"; "youtube.com"]).
Proof.
  destruct (fst (discover ["twitter.com"; "youtube.com"] "8.8.8.8" 1000 discovery_world))
    as [found|e] eqn:Hreturns; [|vm_compute in Hreturns; discriminate Hreturns].
  exact (proj1 (discover_sends_one_query_per_domain ["twitter.com"; "youtube.com"]
                  "8.8.8.8" "8.8.8.8" 53 1000 discovery_world found eq_refl Hreturns)).
Defined.

Lemma parse_at_too_many_colons at_ :
  (2 <= PyStr.count ":" at_)%nat ->
  parse_at at_ = Raise (ValueError "too many values to unpack").
Proof.
  intros Hcount. unfold parse_at. rewrite contains_count.
  pose proof (split_length ":" at_) as Hlength.
  destruct (PyStr.count ":" at_) as [|[|n]]; [lia..|]. cbn [Nat.eqb negb].
  by destruct (PyStr.split ":" at_) as [|p1 [|p2 [|p3 pieces]]].
Qed.

(** X18: an endpoint that [parse_at] refuses stops discover before
    anything is sent: with two or more colons, or with one colon followed
    by a text that [int] refuses, discover raises and leaves the world as it
    was, whatever the domains. *)
Theorem discover_refuses_endpoint_before_sending
    (domains : list string) (timeout : Z) (w : World) :
  (forall at_,
     (2 <= PyStr.count ":" at_)%nat ->
     discover domains at_ timeout w = (Raise (ValueError "too many values to unpack"), w)) /\
  (forall host port e,
     PyStr.count ":" host = 0%nat -> PyStr.count ":" port = 0%nat ->
     PyStr.int port = Raise e ->
     discover domains (host +:+ ":" +:+ port) timeout w = (Raise e, w)).
Proof.
  split.
  - intros at_ Hcount. unfold discover, mbind, M_bind, lift.
    by rewrite parse_at_too_many_colons.
  - intros host port e Hhost Hport Hint. unfold discover, mbind, M_bind, lift.
    by rewrite parse_at_with_port, Hint.
Qed.

Lemma discover_refuses_endpoint_before_sending_witness :
  discover ["twitter.com"] "2001:db8::1" 1000 discovery_world
  = (Raise (ValueError "too many values to unpack"), discovery_world) /\
  discover ["twitter.com"] "8.8.8.8:dns" 1000 discovery_world
  = (Raise (ValueError "invalid literal for int() with base 10"), discovery_world).
Proof.
  destruct (discover_refuses_endpoint_before_sending ["twitter.com"] 1000 discovery_world)
    as [Hmany Hport].
  split.
  - apply Hmany. cbn. lia.
  - apply (Hport "8.8.8.8" "dns"); reflexivity.
Defined.

(** X19: the discovered set only grows with the list of domains: what
    discover returns for a list of domains is included in what it returns
    for that list followed by further domains. *)
Theorem discover_grows_with_domains
    (domains further : list string) (at_ server_ip : string)
    (server_port timeout : Z) (w : World)
    (sessions more rest : list (list (Z * Event)))
    (listss listss' : list (list (list string))) :
  parse_at at_ = Ok (server_ip, server_port) ->
  network w = sessions ++ more ++ rest ->
  length domains = length sessions ->
  length further = length more ->
  Forall2 (observes timeout) sessions listss ->
  Forall2 (observes timeout) more listss' ->
  exists found found',
    fst (discover domains at_ timeout w) = Ok found /\
    fst (discover (domains ++ further) at_ timeout w) = Ok found' /\
    found ⊆ found'.
Proof.
  intros Hat Hnetwork Hdomains Hfurther Hobserves Hobserves'.
  unfold discover, mbind, M_bind, lift. rewrite Hat.
  rewrite (discover_loop_union _ _ _ _ _ Hobserves _ _ _ (more ++ rest) Hdomains Hnetwork).
  assert (Forall2 (observes timeout) (sessions ++ more) (listss ++ listss')) as Hboth
    by (by apply Forall2_app).
  rewrite (discover_loop_union _ _ _ _ _ Hboth (domains ++ further) ∅ w rest).
  - eexists _, _. split_and!; [reflexivity..|].
    rewrite fmap_app, union_list_app_L. set_solver.
  - rewrite !length_app. lia.
  - by rewrite <- app_assoc.
Qed.

Lemma discover_grows_with_domains_witness :
  exists found found',
    fst (discover ["twitter.com"] "8.8.8.8" 1000 discovery_world) = Ok found /\
    fst (discover (["twitter.com"] ++ ["youtube.com"]) "8.8.8.8" 1000 discovery_world)
    = Ok found' /\
    found ⊆ found'.
Proof.
  apply (discover_grows_with_domains ["twitter.com"] ["youtube.com"] "8.8.8.8" "8.8.8.8"
           53 1000 discovery_world
           [[(10, Datagram R9); (40, Datagram R98)]]
           [[(10, Datagram R1); (40, Datagram R2)]] []
           [[["9.9.9.9"]; ["9.9.9.9"; "8.8.8.8"]]] [[["1.1.1.1"]; ["2.2.2.2"]]]);
    try reflexivity.
  - constructor; [|constructor].
    exists [(10, R9); (40, R98)]. split; [|reflexivity].
    exists []. split_and!; [reflexivity| |exact I]. repeat constructor; cbn; lia.
  - constructor; [|constructor].
    exists [(10, R1); (40, R2)]. split; [|reflexivity].
    exists []. split_and!; [reflexivity| |exact I]. repeat constructor; cbn; lia.
Defined.

Lemma mapM_result_spec {A B} (f : A -> result B) (l : list A) (k : list B) :
  mapM f l = Ok k -> Forall2 (fun x y => f x = Ok y) l k.
Proof.
  revert k. induction l as [|x l IH]; intros k.
  - intros [= <-]. constructor.
  - cbn. destruct (f x) as [y|] eqn:Hy; [|done]. cbn.
    destruct (mapM f l) as [rest|]; [|done]. cbn. intros [= <-].
    constructor; [done|by apply IH].
Qed.

Lemma list_ipv4_addresses_dotted response addresses :
  list_ipv4_addresses response = Ok addresses -> Forall dotted_quad addresses.
Proof.
  intros Haddresses. apply mapM_inet_ntoa_spec in Haddresses.
  induction Haddresses; constructor; [by eapply inet_ntoa_dotted_quad|done].
Qed.

Lemma observes_dotted timeout session lists :
  observes timeout session lists -> Forall (Forall dotted_quad) lists.
Proof.
  intros (responses & _ & Hlists). apply mapM_result_spec in Hlists.
  induction Hlists; constructor; [by eapply list_ipv4_addresses_dotted|done].
Qed.

Lemma contribution_elem address lists :
  address ∈ contribution lists ->
  [address] ∈ lists /\ exists addresses, addresses ∈ lists /\ (1 < length addresses)%nat.
Proof.
  unfold contribution.
  destruct (existsb _ lists) eqn:Hmany; [|set_solver].
  intros Helem. split.
  - apply elem_of_union_list in Helem as (X & HX & Helem).
    apply list_elem_of_In, in_map_iff in HX as (addresses & <- & Hin).
    destruct addresses as [|a1 [|a2 addresses]]; [set_solver| |set_solver].
    apply elem_of_singleton in Helem as ->. by apply list_elem_of_In.
  - apply existsb_exists in Hmany as (addresses & Hin & Hlength).
    exists addresses. split; [by apply list_elem_of_In|]. by apply Nat.ltb_lt.
Qed.

(** X20: every entry of the set discover returns is a dotted quad, and it
    was the only address of a message collected for a domain for which a
    message with more than one address was collected too. *)
Theorem discovered_entries_are_single_answers
    (domains : list string) (at_ server_ip : string) (server_port timeout : Z)
    (w : World) (sessions rest : list (list (Z * Event)))
    (listss : list (list (list string))) :
  parse_at at_ = Ok (server_ip, server_port) ->
  network w = sessions ++ rest ->
  length domains = length sessions ->
  Forall2 (observes timeout) sessions listss ->
  exists found,
    fst (discover domains at_ timeout w) = Ok found /\
    forall address, address ∈ found ->
      dotted_quad address /\
      exists lists,
        lists ∈ listss /\ [address] ∈ lists /\
        exists addresses, addresses ∈ lists /\ (1 < length addresses)%nat.
Proof.
  intros Hat Hnetwork Hlength Hobserves.
  unfold discover, mbind, M_bind, lift. rewrite Hat.
  rewrite (discover_loop_union _ _ _ _ _ Hobserves _ _ _ rest Hlength Hnetwork).
  eexists. split; [reflexivity|]. intros address Helem.
  apply elem_of_union in Helem as [Helem|Helem]; [set_solver|].
  apply elem_of_union_list in Helem as (X & HX & Helem).
  apply list_elem_of_fmap in HX as (lists & -> & Hlists).
  destruct (contribution_elem _ _ Helem) as [Hsingle Hmany].
  split; [|by exists lists].
  assert (Forall (Forall dotted_quad) lists) as Hdotted.
  { clear -Hobserves Hlists.
    induction Hobserves as [|session lists' sessions listss Hone _ IH]; [set_solver|].
    apply elem_of_cons in Hlists as [->|Hlists]; [by eapply observes_dotted|by apply IH]. }
  rewrite Forall_forall in Hdotted. specialize (Hdotted _ Hsingle).
  by apply Forall_inv in Hdotted.
Qed.

Lemma discovered_entries_are_single_answers_witness :
  exists found,
    fst (discover ["twitter.com"; "youtube.com"] "8.8.8.8" 1000 discovery_world)
    = Ok found /\
    forall address, address ∈ found ->
      dotted_quad address /\
      exists lists,
        lists ∈ [[["9.9.9.9"]; ["9.9.9.9"; "8.8.8.8"]]; [["1.1.1.1"]; ["2.2.2.2"]]] /\
        [address] ∈ lists /\
        exists addresses, addresses ∈ lists /\ (1 < length addresses)%nat.
Proof.
  apply (discovered_entries_are_single_answers ["twitter.com"; "youtube.com"]
           "8.8.8.8" "8.8.8.8" 53 1000 discovery_world
           (network discovery_world) []); try reflexivity.
  constructor; [|constructor; [|constructor]].
  - exists [(10, R9); (40, R98)]. split; [|reflexivity].
    exists []. split_and!; [reflexivity| |exact I]. repeat constructor; cbn; lia.
  - exists [(10, R1); (40, R2)]. split; [|reflexivity].
    exists []. split_and!; [reflexivity| |exact I]. repeat constructor; cbn; lia.
Defined.

(** * The stream transport and the dispatch of resolve *)

(** ** The length prefix *)

Lemma byte_value_of n : byte_value (byte_of n) = n mod 256.
Proof.
  unfold byte_value, byte_of.
  pose proof (Z.mod_pos_bound n 256 ltac:(lia)) as Hbound.
  pose proof (Byte.to_of_N_option_map (Z.to_N (n mod 256))) as Hbyte.
  replace (N.leb (Z.to_N (n mod 256)) 255) with true in Hbyte
    by (symmetry; apply N.leb_le; lia).
  destruct (Byte.of_N (Z.to_N (n mod 256))) as [b|]; [|discriminate Hbyte].
  injection Hbyte as ->. lia.
Qed.

(** X21: the length prefix the client writes is the one its own reader
    understands: for every length from -32768 to 32767 unpacking the two
    bytes of the packed length gives the length back, and a length outside
    that range cannot be packed. *)
Theorem struct_unpack_h_reads_back_pack (n : Z) :
  (-32768 <= n <= 32767 -> struct_pack_h n ≫= struct_unpack_h = Ok n) /\
  (n < -32768 \/ 32767 < n -> struct_pack_h n = Raise struct_error).
Proof.
  unfold struct_pack_h. split.
  - intros Hrange.
    replace ((-32768 <=? n) && (n <=? 32767)) with true
      by (symmetry; apply andb_true_iff; split; apply Z.leb_le; lia).
    cbn [mbind result_bind struct_unpack_h]. rewrite !byte_value_of. f_equal.
    destruct (Z.ltb_spec (256 * ((n / 256) mod 256) + n mod 256) 32768);
      Z.div_mod_to_equations; lia.
  - intros Hrange.
    replace ((-32768 <=? n) && (n <=? 32767)) with false; [done|].
    symmetry. apply andb_false_iff.
    destruct Hrange; [left; apply Z.leb_gt|right; apply Z.leb_gt]; lia.
Qed.

Lemma struct_unpack_h_reads_back_pack_witness :
  struct_pack_h (-2) ≫= struct_unpack_h = Ok (-2) /\
  struct_pack_h 40000 = Raise struct_error.
Proof.
  split.
  - apply (proj1 (struct_unpack_h_reads_back_pack (-2))). lia.
  - apply (proj2 (struct_unpack_h_reads_back_pack 40000)). lia.
Defined.

(** ** Reading from a stream *)

Lemma read_exact sock data rest h :
  unread sock = data ++ rest ->
  read sock (len data) h =
  (Ok (data, {| timeout_of := timeout_of sock; remote := remote sock;
                unread := rest; peer_closes := peer_closes sock |}), h).
Proof.
  intros Hunread. unfold read, len, list_len. rewrite Hunread.
  replace (Z.of_nat (length data) <? 0) with false by (symmetry; apply Z.ltb_ge; lia).
  replace (Z.of_nat (length data) <=? Z.of_nat (length (data ++ rest))) with true
    by (symmetry; apply Z.leb_le; rewrite length_app; lia).
  by rewrite Nat2Z.id, take_app_length, drop_app_length.
Qed.

Lemma read_short sock size h :
  len (unread sock) < size ->
  read sock size h =
  if peer_closes sock
  then (Ok (unread sock,
            {| timeout_of := timeout_of sock; remote := remote sock;
               unread := []; peer_closes := peer_closes sock |}), h)
  else (Raise SocketTimeout, h).
Proof.
  intros Hshort. unfold read.
  assert (0 <= len (unread sock)) by (unfold len, list_len; lia).
  replace (size <? 0) with false by (symmetry; apply Z.ltb_ge; lia).
  replace (size <=? len (unread sock)) with false by (symmetry; apply Z.leb_gt; lia).
  destruct (peer_closes sock); [|done]. cbn. by rewrite drop_all.
Qed.

Lemma read_to_end sock size h :
  size < 0 ->
  read sock size h =
  if peer_closes sock
  then (Ok (unread sock,
            {| timeout_of := timeout_of sock; remote := remote sock;
               unread := []; peer_closes := peer_closes sock |}), h)
  else (Raise SocketTimeout, h).
Proof.
  intros Hnegative. unfold read. holds.
  destruct (peer_closes sock); [|done]. cbn. by rewrite drop_all.
Qed.

Lemma struct_unpack_h_two data n :
  struct_unpack_h data = Ok n -> exists high low, data = [high; low].
Proof. destruct data as [|high [|low [|]]]; try discriminate. by eexists _, _. Qed.

Section Stream.

Context (encode : Request -> result (list byte)) (decode : list byte -> result DNS).

(** Once the connection is made and the encoded request fits the prefix,
    the request is written and the reply is read. *)
Lemma resolve_over_tcp_connected domain server_ip server_port timeout h peer data prefix :
  0 < timeout ->
  head (streams h) = Some peer ->
  accepts peer = true ->
  encode (request_of domain h) = Ok data ->
  struct_pack_h (len data) = Ok prefix ->
  resolve_over_tcp encode decode domain server_ip server_port timeout h =
  read_reply decode (connected timeout (server_ip, server_port) peer)
    (after_send (prefix ++ data) (server_ip, server_port) h).
Proof.
  intros Htimeout Hpeer Haccepts Hdata Hprefix.
  destruct h as [w [|peer' others] log]; cbn in Hpeer; [done|]. injection Hpeer as ->.
  unfold request_of in Hdata. cbn [datagram_world] in Hdata.
  unfold resolve_over_tcp, mbind at 1 2 3 4 5 6 7, T_bind at 1 2 3 4 5 6 7.
  unfold socket_stream, settimeout, mret, T_ret.
  replace (timeout <? 0) with false by (symmetry; apply Z.ltb_ge; lia).
  cbn [over_datagrams os_getpid datagram_world streams written connect timeout_of].
  replace (timeout =? 0) with false by (symmetry; apply Z.eqb_neq; lia).
  rewrite Haccepts. cbn [orb negb returned]. rewrite Hdata, Hprefix. cbn [send remote].
  reflexivity.
Qed.

(** The reply part never takes the branch for a message that counts as
    false: a decoded message has a length of at least 12. *)
Lemma read_reply_decoded (data : list byte) (h : Host) :
  (response ← returned (decode data);
   if negb (len response =? 0) then returned (list_ipv4_addresses response)
   else mret []) h
  = (decode data ≫= list_ipv4_addresses, h).
Proof.
  unfold mbind at 1, T_bind, returned.
  destruct (decode data) as [response|e]; [|done]. cbn [mbind result_bind].
  unfold len, dns_len.
  by replace (12 + Z.of_nat (sections_size response) =? 0) with false
    by (symmetry; apply Z.eqb_neq; lia).
Qed.

(** X22: when the peer accepts the connection and sends a length prefix
    followed by at least that many bytes, the client writes one frame, its
    request behind the prefix of its length, and returns the addresses of
    the message decoded from exactly the announced bytes; what the peer
    sends after them, and whether it closes, makes no difference. *)
Theorem resolve_over_tcp_reads_one_frame
    (domain server_ip : string) (server_port timeout : Z) (h : Host) (peer : Stream)
    (data prefix frame payload rest : list byte) :
  0 < timeout ->
  head (streams h) = Some peer ->
  accepts peer = true ->
  encode (request_of domain h) = Ok data ->
  struct_pack_h (len data) = Ok prefix ->
  incoming peer = frame ++ payload ++ rest ->
  struct_unpack_h frame = Ok (len payload) ->
  resolve_over_tcp encode decode domain server_ip server_port timeout h =
  (decode payload ≫= list_ipv4_addresses,
   after_send (prefix ++ data) (server_ip, server_port) h).
Proof.
  intros Htimeout Hpeer Haccepts Hdata Hprefix Hincoming Hframe.
  rewrite (resolve_over_tcp_connected _ _ _ _ _ _ _ _ Htimeout Hpeer Haccepts Hdata Hprefix).
  destruct (struct_unpack_h_two _ _ Hframe) as (high & low & ->).
  unfold read_reply, mbind at 1, T_bind at 1.
  rewrite (read_exact _ [high; low] (payload ++ rest)) by exact Hincoming.
  unfold mbind at 1, T_bind at 1, returned at 1. rewrite Hframe.
  unfold mbind at 1, T_bind at 1.
  rewrite (read_exact _ payload rest) by done.
  apply read_reply_decoded.
Qed.

(** X23: the reader does not compare what it got with what was announced:
    when the peer announces more bytes than it sends, the client decodes the
    bytes that came if the peer closes the connection, and raises a time-out
    if the peer stays silent. *)
Theorem resolve_over_tcp_takes_short_payload
    (domain server_ip : string) (server_port timeout : Z) (h : Host) (peer : Stream)
    (data prefix frame partial : list byte) (announced : Z) :
  0 < timeout ->
  head (streams h) = Some peer ->
  accepts peer = true ->
  encode (request_of domain h) = Ok data ->
  struct_pack_h (len data) = Ok prefix ->
  incoming peer = frame ++ partial ->
  struct_unpack_h frame = Ok announced ->
  len partial < announced ->
  resolve_over_tcp encode decode domain server_ip server_port timeout h =
  (if closes peer then decode partial ≫= list_ipv4_addresses else Raise SocketTimeout,
   after_send (prefix ++ data) (server_ip, server_port) h).
Proof.
  intros Htimeout Hpeer Haccepts Hdata Hprefix Hincoming Hframe Hshort.
  rewrite (resolve_over_tcp_connected _ _ _ _ _ _ _ _ Htimeout Hpeer Haccepts Hdata Hprefix).
  destruct (struct_unpack_h_two _ _ Hframe) as (high & low & ->).
  unfold read_reply, mbind at 1, T_bind at 1.
  rewrite (read_exact _ [high; low] partial) by exact Hincoming.
  unfold mbind at 1, T_bind at 1, returned at 1. rewrite Hframe.
  unfold mbind at 1, T_bind at 1.
  rewrite read_short by done. cbn [peer_closes connected unread].
  destruct (closes peer); [|done]. apply read_reply_decoded.
Qed.

(** X24: a length prefix whose high bit is set is read as a negative
    number, and the client then reads everything up to the end of the
    stream: it decodes all the bytes that follow the prefix if the peer
    closes the connection, and raises a time-out if the peer stays
    silent. *)
Theorem resolve_over_tcp_negative_length_reads_all
    (domain server_ip : string) (server_port timeout : Z) (h : Host) (peer : Stream)
    (data prefix : list byte) (high low : byte) (everything : list byte) :
  0 < timeout ->
  head (streams h) = Some peer ->
  accepts peer = true ->
  encode (request_of domain h) = Ok data ->
  struct_pack_h (len data) = Ok prefix ->
  incoming peer = [high; low] ++ everything ->
  128 <= byte_value high ->
  resolve_over_tcp encode decode domain server_ip server_port timeout h =
  (if closes peer then decode everything ≫= list_ipv4_addresses else Raise SocketTimeout,
   after_send (prefix ++ data) (server_ip, server_port) h).
Proof.
  intros Htimeout Hpeer Haccepts Hdata Hprefix Hincoming Hhigh.
  rewrite (resolve_over_tcp_connected _ _ _ _ _ _ _ _ Htimeout Hpeer Haccepts Hdata Hprefix).
  unfold read_reply, mbind at 1, T_bind at 1.
  rewrite (read_exact _ [high; low] everything) by exact Hincoming.
  unfold mbind at 1, T_bind at 1, returned at 1. cbn [struct_unpack_h].
  unfold mbind at 1, T_bind at 1.
  assert (0 <= byte_value low < 256) as Hlow.
  { unfold byte_value. pose proof (Byte.to_N_bounded low). lia. }
  assert (byte_value high < 256) as Hhigh'.
  { unfold byte_value. pose proof (Byte.to_N_bounded high). lia. }
  rewrite read_to_end
    by (destruct (Z.ltb_spec (256 * byte_value high + byte_value low) 32768); lia).
  cbn [peer_closes connected unread].
  destruct (closes peer); [|done]. apply read_reply_decoded.
Qed.

(** X25: when the peer sends fewer than the two bytes of the prefix, the
    client raises struct.error if the peer closes the connection, and a
    time-out if the peer stays silent; the request has been written. *)
Theorem resolve_over_tcp_prefix_missing
    (domain server_ip : string) (server_port timeout : Z) (h : Host) (peer : Stream)
    (data prefix : list byte) :
  0 < timeout ->
  head (streams h) = Some peer ->
  accepts peer = true ->
  encode (request_of domain h) = Ok data ->
  struct_pack_h (len data) = Ok prefix ->
  (length (incoming peer) < 2)%nat ->
  resolve_over_tcp encode decode domain server_ip server_port timeout h =
  (Raise (if closes peer then struct_error else SocketTimeout),
   after_send (prefix ++ data) (server_ip, server_port) h).
Proof.
  intros Htimeout Hpeer Haccepts Hdata Hprefix Hshort.
  rewrite (resolve_over_tcp_connected _ _ _ _ _ _ _ _ Htimeout Hpeer Haccepts Hdata Hprefix).
  unfold read_reply, mbind at 1, T_bind at 1.
  rewrite read_short by (cbn; unfold len, list_len; lia).
  cbn [peer_closes connected unread].
  destruct (closes peer); [|done].
  unfold mbind at 1, T_bind at 1, returned at 1.
  by destruct (incoming peer) as [|b1 [|b2 bytes]]; [..|cbn in Hshort; lia].
Qed.

(** X26: nothing is written to the stream unless the time-out is positive,
    the peer accepts the connection and the request fits the prefix: a
    negative time-out is refused before a connection is attempted; a zero
    time-out, no peer or a peer that refuses fail the connection; a request
    that cannot be encoded, or whose encoding is longer than 32767 bytes,
    fails once the connection is made. *)
Theorem resolve_over_tcp_fails_before_writing
    (domain server_ip : string) (server_port timeout : Z) (h : Host) :
  (timeout < 0 ->
   resolve_over_tcp encode decode domain server_ip server_port timeout h =
   (Raise (ValueError "Timeout value out of range"), h)) /\
  (0 <= timeout ->
   timeout = 0 \/ match head (streams h) with
                  | Some peer => accepts peer = false
                  | None => True
                  end ->
   resolve_over_tcp encode decode domain server_ip server_port timeout h =
   (Raise SocketError, after_connect h)) /\
  (forall peer,
   0 < timeout -> head (streams h) = Some peer -> accepts peer = true ->
   match encode (request_of domain h) with
   | Ok data =>
       32767 < len data ->
       resolve_over_tcp encode decode domain server_ip server_port timeout h =
       (Raise struct_error, after_connect h)
   | Raise e =>
       resolve_over_tcp encode decode domain server_ip server_port timeout h =
       (Raise e, after_connect h)
   end).
Proof.
  destruct h as [w peers log]. split_and!.
  - intros Htimeout. unfold resolve_over_tcp, mbind at 1 2, T_bind at 1 2.
    unfold socket_stream, settimeout, mret, T_ret. by holds.
  - intros Htimeout Hfails. unfold resolve_over_tcp, mbind at 1 2 3 4, T_bind at 1 2 3 4.
    unfold socket_stream, settimeout, mret, T_ret.
    replace (timeout <? 0) with false by (symmetry; apply Z.ltb_ge; lia).
    cbn [over_datagrams os_getpid datagram_world streams written connect timeout_of].
    destruct peers as [|peer others]; [done|]. cbn [head] in Hfails.
    unfold connect. cbn [streams timeout_of datagram_world written]. cbn [streams] in Hfails.
    destruct Hfails as [-> | ->]; [done|]. cbn [negb]. by rewrite orb_true_r.
  - intros peer Htimeout Hpeer Haccepts.
    destruct peers as [|peer' others]; cbn in Hpeer; [done|]. injection Hpeer as ->.
    unfold request_of. cbn [datagram_world].
    assert (forall r rest,
              encode {| req_id := pid w; req_name := domain; req_type := DNS_A |} = r ->
              (r ≫= fun data => struct_pack_h (len data)) = Raise rest ->
              resolve_over_tcp encode decode domain server_ip server_port timeout
                {| datagram_world := w; streams := peer :: others; written := log |} =
              (Raise rest, after_connect
                 {| datagram_world := w; streams := peer :: others; written := log |}))
      as Hfails.
    { intros r rest Hr Hrest.
      unfold resolve_over_tcp, mbind at 1 2 3 4 5 6, T_bind at 1 2 3 4 5 6.
      unfold socket_stream, settimeout, mret, T_ret.
      replace (timeout <? 0) with false by (symmetry; apply Z.ltb_ge; lia).
      cbn [over_datagrams os_getpid datagram_world streams written connect timeout_of].
      replace (timeout =? 0) with false by (symmetry; apply Z.eqb_neq; lia).
      rewrite Haccepts. cbn [orb negb returned]. rewrite Hr.
      destruct r as [data|e]; cbn [mbind result_bind] in Hrest; [by rewrite Hrest|].
      by injection Hrest as ->. }
    destruct (encode _) as [data|e] eqn:Hdata; [|by apply (Hfails (Raise e))].
    intros Hlong. apply (Hfails (Ok data)); [done|]. cbn [mbind result_bind].
    unfold struct_pack_h.
    by replace (len data <=? 32767) with false by (symmetry; apply Z.leb_gt; lia);
      rewrite andb_false_r.
Qed.

(** ** The dispatch of resolve *)

(** X27: resolve looks at the endpoint first and at the server type next,
    and at both before anything is sent: an endpoint with two or more
    colons makes it raise whatever the server type, and with an endpoint
    that parses a server type other than udp and tcp makes it raise
    "unsupported server type"; in both cases the host is left as it was. *)
Theorem resolve_validates_before_io
    (domain server_type at_ : string) (timeout : Z) (strategy : string)
    (wrong_answer : option (list string)) (h : Host) :
  ((2 <= PyStr.count ":" at_)%nat ->
   resolve encode decode domain server_type at_ timeout strategy wrong_answer h =
   (Raise (ValueError "too many values to unpack"), h)) /\
  (forall server_ip server_port,
   parse_at at_ = Ok (server_ip, server_port) ->
   server_type <> "udp" -> server_type <> "tcp" ->
   resolve encode decode domain server_type at_ timeout strategy wrong_answer h =
   (Raise (Exception ("unsupported server type: " +:+ server_type)), h)).
Proof.
  split.
  - intros Hcount. unfold resolve, mbind, T_bind, returned.
    by rewrite parse_at_too_many_colons.
  - intros server_ip server_port Hat Hudp Htcp.
    unfold resolve, mbind at 1, T_bind at 1, returned. rewrite Hat.
    replace (String.eqb "udp" server_type) with false
      by (symmetry; apply String.eqb_neq; congruence).
    by replace (String.eqb "tcp" server_type) with false
      by (symmetry; apply String.eqb_neq; congruence).
Qed.

End Stream.

Lemma resolve_over_tcp_reads_one_frame_witness :
  resolve_over_tcp example_encode example_decode "twitter.com" "8.8.8.8" 53 1000
    (example_host {| accepts := true; incoming := [x00; x01; x09; xff]; closes := false |})
  = (Ok ["9.9.9.9"],
     after_send ([x00; x01] ++ [x2a]) ("8.8.8.8", 53)
       (example_host {| accepts := true; incoming := [x00; x01; x09; xff];
                        closes := false |})).
Proof.
  apply (resolve_over_tcp_reads_one_frame example_encode example_decode
           "twitter.com" "8.8.8.8" 53 1000
           (example_host {| accepts := true; incoming := [x00; x01; x09; xff]; closes := false |})
           {| accepts := true; incoming := [x00; x01; x09; xff]; closes := false |}
           [x2a] [x00; x01] [x00; x01] [x09] [xff]);
    (lia || reflexivity).
Defined.

Lemma resolve_over_tcp_takes_short_payload_witness :
  resolve_over_tcp example_encode example_decode "twitter.com" "8.8.8.8" 53 1000
    (example_host {| accepts := true; incoming := [x00; x05; x09]; closes := true |})
  = (Ok ["9.9.9.9"],
     after_send ([x00; x01] ++ [x2a]) ("8.8.8.8", 53)
       (example_host {| accepts := true; incoming := [x00; x05; x09]; closes := true |})).
Proof.
  apply (resolve_over_tcp_takes_short_payload example_encode example_decode
           "twitter.com" "8.8.8.8" 53 1000
           (example_host {| accepts := true; incoming := [x00; x05; x09]; closes := true |})
           {| accepts := true; incoming := [x00; x05; x09]; closes := true |}
           [x2a] [x00; x01] [x00; x05] [x09] 5);
    ((cbn; lia) || reflexivity).
Defined.

Lemma resolve_over_tcp_negative_length_reads_all_witness :
  resolve_over_tcp example_encode example_decode "twitter.com" "8.8.8.8" 53 1000
    (example_host {| accepts := true; incoming := [xff; xfe; x09; x08]; closes := true |})
  = (Ok ["9.9.9.9"; "8.8.8.8"],
     after_send ([x00; x01] ++ [x2a]) ("8.8.8.8", 53)
       (example_host {| accepts := true; incoming := [xff; xfe; x09; x08];
                        closes := true |})).
Proof.
  apply (resolve_over_tcp_negative_length_reads_all example_encode example_decode
           "twitter.com" "8.8.8.8" 53 1000
           (example_host {| accepts := true; incoming := [xff; xfe; x09; x08]; closes := true |})
           {| accepts := true; incoming := [xff; xfe; x09; x08]; closes := true |}
           [x2a] [x00; x01] xff xfe [x09; x08]);
    ((cbn; lia) || reflexivity).
Defined.

Lemma resolve_over_tcp_prefix_missing_witness :
  resolve_over_tcp example_encode example_decode "twitter.com" "8.8.8.8" 53 1000
    (example_host {| accepts := true; incoming := [x00]; closes := true |})
  = (Raise struct_error,
     after_send ([x00; x01] ++ [x2a]) ("8.8.8.8", 53)
       (example_host {| accepts := true; incoming := [x00]; closes := true |})).
Proof.
  apply (resolve_over_tcp_prefix_missing example_encode example_decode
           "twitter.com" "8.8.8.8" 53 1000
           (example_host {| accepts := true; incoming := [x00]; closes := true |})
           {| accepts := true; incoming := [x00]; closes := true |}
           [x2a] [x00; x01]);
    ((cbn; lia) || reflexivity).
Defined.

Lemma resolve_over_tcp_fails_before_writing_witness :
  resolve_over_tcp example_encode example_decode "twitter.com" "8.8.8.8" 53 0
    (example_host {| accepts := true; incoming := [x00; x01; x09]; closes := true |})
  = (Raise SocketError,
     after_connect
       (example_host {| accepts := true; incoming := [x00; x01; x09]; closes := true |})).
Proof.
  apply (proj1 (proj2 (resolve_over_tcp_fails_before_writing example_encode example_decode
                         "twitter.com" "8.8.8.8" 53 0 _))); [lia|by left].
Defined.

Lemma resolve_validates_before_io_witness :
  resolve example_encode example_decode "twitter.com" "http" "8.8.8.8:53" 1000
    "pick-first" None
    (example_host {| accepts := true; incoming := []; closes := true |})
  = (Raise (Exception "unsupported server type: http"),
     example_host {| accepts := true; incoming := []; closes := true |}).
Proof.
  apply (proj2 (resolve_validates_before_io example_encode example_decode
                  "twitter.com" "http" "8.8.8.8:53" 1000 "pick-first" None _)
           "8.8.8.8" 53); [reflexivity|discriminate..].
Defined.
